(** * skynet: the MCP tool proxy, its browser client and the schema normalizer

    A shallow embedding of
    - [src/utils/toolConversion.ts] (tool descriptor -> function declaration),
    - the copy of the converter kept in the Altair component,
    - [server/src/server.js] (the WebSocket proxy in front of the MCP backends),
    - [src/lib/mcp-client-manager.ts] (the browser-side WebSocket client),
    together with the properties stated about them. *)

From Stdlib Require Import Ascii String List.
From stdpp Require Import gmap strings list fin_maps.

Local Open Scope string_scope.

(** ** A console: the only ambient state the converters touch *)

Module Console.

(** One argument of a [console.log] call: a string, or a structured value
    that the source prints (directly or through [JSON.stringify]).  The
    payload type is left to the client module. *)
Inductive arg (V : Type) : Type :=
| Str (s : string)
| Val (v : V).
Arguments Str {V} s.
Arguments Val {V} v.

(** The console is the list of calls made so far, oldest first. *)
Definition t (V : Type) : Type := list (list (arg V)).

(** Computations that may write to the console. *)
Definition IO (V A : Type) : Type := t V -> A * t V.

Definition ret {V A} (a : A) : IO V A := fun c => (a, c).

Definition bind {V A B} (m : IO V A) (k : A -> IO V B) : IO V B :=
  fun c => let (a, c') := m c in k a c'.

Definition log {V} (args : list (arg V)) : IO V unit :=
  fun c => (tt, (c ++ [args])%list).

(** [arr.filter(p)] where the callback may log. *)
Fixpoint filterM {V A} (p : A -> IO V bool) (l : list A) : IO V (list A) :=
  match l with
  | [] => ret []
  | x :: l' =>
      bind (p x) (fun b =>
      bind (filterM p l') (fun r =>
      ret (if b then x :: r else r)))
  end.

(** [arr.map(f)] where the callback may log. *)
Fixpoint mapM {V A B} (f : A -> IO V B) (l : list A) : IO V (list B) :=
  match l with
  | [] => ret []
  | x :: l' =>
      bind (f x) (fun y =>
      bind (mapM f l') (fun r =>
      ret (y :: r)))
  end.

(** [arr.forEach(f)] where the callback updates a local accumulator. *)
Fixpoint foldM {V A S} (f : S -> A -> IO V S) (s : S) (l : list A) : IO V S :=
  match l with
  | [] => ret s
  | x :: l' => bind (f s x) (fun s' => foldM f s' l')
  end.

(** [writes m a out]: from any console, [m] returns [a] and appends [out]. *)
Definition writes {V A} (m : IO V A) (a : A) (out : t V) : Prop :=
  ∀ c, m c = (a, (c ++ out)%list).

End Console.

Notation "'let*' x := m 'in' k" := (Console.bind m (fun x => k))
  (at level 10, x name, m at level 100, k at level 200, only parsing).
Notation "m ;; k" := (Console.bind m (fun _ => k))
  (at level 100, k at level 200, right associativity, only parsing).

(** ** Tool descriptors and function declarations *)

(** [SchemaType] of the generative-ai package. *)
Inductive SchemaType := STRING | NUMBER | INTEGER | BOOLEAN | ARRAY | OBJECT.

#[global] Instance SchemaType_eq_dec : EqDecision SchemaType.
Proof. solve_decision. Defined.

(** A property of an object-typed array item ([subProp] in the source).
    A field that is absent (or [undefined]) is [None].  A [type] that is not
    a string compares unequal to every literal the code tests, exactly like
    an unknown string, so [option string] loses nothing. *)
Record SubProp := {
  sub_type : option string;
  sub_description : option string
}.

(** [prop.items]. *)
Record Items := {
  items_type : option string;
  items_properties : option (gmap string SubProp);
  items_required : option (list string)
}.

(** One entry of [inputSchema.properties] ([prop] in the source). *)
Record Property := {
  prop_type : option string;
  prop_items : option Items;
  prop_description : option string
}.

Record InputSchema := {
  schema_uri : option string;                       (* $schema *)
  schema_type : option string;                      (* type *)
  properties : option (gmap string Property);
  required : option (list string);
  additionalProperties : option bool
}.

(** [interface Tool].  The description is declared [string], but both
    converters guard it ([desc?.replace], [|| '']) because providers may
    leave it out; [None] is that case. *)
Record Tool := {
  name : string;
  description : option string;
  serverName : string;
  inputSchema : option InputSchema
}.

(** The converted shapes.  [cp_items] is present only on array fields, and
    [ci_properties] / [ci_required] only when the source assigns them. *)
Record ConvertedSub := {
  cs_type : SchemaType;
  cs_description : string
}.

Record ConvertedItems := {
  ci_type : SchemaType;
  ci_properties : option (gmap string ConvertedSub);
  ci_required : option (list string)
}.

Record ConvertedProp := {
  cp_type : SchemaType;
  cp_items : option ConvertedItems;
  cp_description : string
}.

Record Parameters := {
  par_type : SchemaType;
  par_properties : gmap string ConvertedProp;
  par_required : list string
}.

(** [interface FunctionDeclaration].  [fd_description] is optional only
    because the Altair copy passes [tool.description] through unguarded. *)
Record FunctionDeclaration := {
  fd_name : string;
  fd_description : option string;
  fd_parameters : option Parameters
}.

(** What the converters print. *)
Inductive dump :=
| DSchema (s : option InputSchema)
| DProperty (p : Property)
| DDeclaration (d : FunctionDeclaration)
| DSelected (l : list (string * string * option InputSchema)).

Abbreviation IO := (Console.IO dump).
Abbreviation Str := (@Console.Str dump).
Abbreviation Val := (@Console.Val dump).
Abbreviation writes := Console.writes.

(** ** The property conversion shared by both copies of the converter *)

Section Converter.

(** How a description is cleaned: the one place where the two copies of
    the property conversion differ. *)
Variable clean : option string -> string.

(** The four-way conditional on [prop.items?.type]. *)
Definition itemType (items : option Items) : SchemaType :=
  match items ≫= items_type with
  | Some "string" => STRING
  | Some "number" => NUMBER
  | Some "boolean" => BOOLEAN
  | Some "object" => OBJECT
  | _ => STRING
  end.

(** The three-way conditional on [prop.type] / [subProp.type]. *)
Definition scalarType (ty : option string) : SchemaType :=
  match ty with
  | Some "string" => STRING
  | Some "number" => NUMBER
  | Some "boolean" => BOOLEAN
  | _ => OBJECT
  end.

Definition convertSub (sp : SubProp) : ConvertedSub :=
  {| cs_type := scalarType (sub_type sp);
     cs_description := clean (sub_description sp) |}.

(** [obj[key] = value] on a plain object, for a [value] that is itself an
    object.  The maps hold the own properties of an object.  The key
    [__proto__] reaches the setter that every plain object inherits from
    [Object.prototype]: it replaces the prototype of [obj] and adds no own
    property.  Any other key becomes, or overwrites, an own property. *)
Definition assign {B} (key : string) (value : B) (obj : gmap string B)
    : gmap string B :=
  if decide (key = "__proto__") then obj else <[key := value]> obj.

(** [Object.entries(o).reduce((acc, [k, v]) => { acc[k] = f(v); return acc }, {})] *)
Definition reduceEntries {A B} (f : A -> B) (o : gmap string A) : gmap string B :=
  foldl (fun acc kv => assign kv.1 (f kv.2) acc) ∅ (map_to_list o).

(** The value assigned to [convertedProperties[key]], after the optional
    "array of objects" update of its [items]. *)
Definition convertProperty (prop : Property) : ConvertedProp :=
  if decide (prop_type prop = Some "array") then
    let items0 := {| ci_type := itemType (prop_items prop);
                     ci_properties := None;
                     ci_required := None |} in
    let items1 :=
      match prop_items prop ≫= items_properties with
      | Some sub =>
          {| ci_type := ci_type items0;
             ci_properties := Some (reduceEntries convertSub sub);
             ci_required :=
               Some (default [] (prop_items prop ≫= items_required)) |}
      | None => items0
      end in
    {| cp_type := ARRAY;
       cp_items := Some items1;
       cp_description := clean (prop_description prop) |}
  else
    {| cp_type := scalarType (prop_type prop);
       cp_items := None;
       cp_description := clean (prop_description prop) |}.

(** The body of the [forEach] over [Object.entries(properties)]. *)
Definition convertEntry (acc : gmap string ConvertedProp)
    (kv : string * Property) : IO (gmap string ConvertedProp) :=
  Console.log [Str ("Converting property " +:+ kv.1 +:+ ":"); Val (DProperty kv.2)] ;;
  Console.ret (assign kv.1 (convertProperty kv.2) acc).

Definition convertProperties (props : gmap string Property)
    : IO (gmap string ConvertedProp) :=
  Console.foldM convertEntry ∅ (map_to_list props).

End Converter.

(** ** [src/utils/toolConversion.ts] *)

Module ToolConversion.

Definition isQuote (a : ascii) : bool :=
  bool_decide (a = ascii_of_nat 39)        (* apostrophe *)
  || bool_decide (a = ascii_of_nat 34)     (* double quote *)
  || bool_decide (a = ascii_of_nat 96).    (* backtick *)

(** [s.replace(re, empty)], with [re] the global character class of the
    three quote characters. *)
Fixpoint stripQuotes (s : string) : string :=
  match s with
  | EmptyString => EmptyString
  | String a s' => if isQuote a then stripQuotes s' else String a (stripQuotes s')
  end.

(** [cleanDescription]: an absent description, and one that is empty once
    stripped, both give the empty string. *)
Definition cleanDescription (desc : option string) : string :=
  match desc with
  | Some d => stripQuotes d
  | None => ""
  end.

Definition convertToolToFunctionDeclaration (tool : Tool) : IO FunctionDeclaration :=
  Console.log [Str ("Converting tool " +:+ name tool +:+ ":");
               Val (DSchema (inputSchema tool))] ;;
  match inputSchema tool ≫= properties with
  | None =>
      Console.ret
        {| fd_name := name tool;
           fd_description := Some (cleanDescription (description tool));
           fd_parameters := Some {| par_type := OBJECT;
                                    par_properties := ∅;
                                    par_required := [] |} |}
  | Some props =>
      let* convertedProperties := convertProperties cleanDescription props in
      let result :=
        {| fd_name := name tool;
           fd_description := Some (cleanDescription (description tool));
           fd_parameters :=
             Some {| par_type := OBJECT;
                     par_properties := convertedProperties;
                     par_required := default [] (inputSchema tool ≫= required) |} |} in
      Console.log [Str ("Converted result for " +:+ name tool +:+ ":");
                   Val (DDeclaration result)] ;;
      Console.ret result
  end.

Definition skipServers : list string := ["filesystem"; "docker-mcp"].

(** The callback of [tools.filter]. *)
Definition validTool (tool : Tool) : IO bool :=
  match inputSchema tool ≫= properties with
  | None =>
      Console.log [Str ("Skipping tool " +:+ name tool +:+ ": No schema properties")] ;;
      Console.ret false
  | Some _ =>
      if bool_decide (serverName tool ∈ skipServers) then
        Console.log [Str ("Skipping tool " +:+ name tool +:+ " from server "
                          +:+ serverName tool)] ;;
        Console.ret false
      else Console.ret true
  end.

(** The callback of [validTools.map]. *)
Definition convertLogged (tool : Tool) : IO FunctionDeclaration :=
  Console.log [Str ("Converting tool " +:+ name tool +:+ " from " +:+ serverName tool)] ;;
  let* declaration := convertToolToFunctionDeclaration tool in
  Console.log [Str ("Converted " +:+ name tool +:+ " to:");
               Val (DDeclaration declaration)] ;;
  Console.ret declaration.

Definition filterAndConvertTools (tools : list Tool) : IO (list FunctionDeclaration) :=
  let* validTools := Console.filterM validTool tools in
  Console.log [Str "Selected tools:";
               Val (DSelected (map (fun t => (name t, serverName t, inputSchema t))
                                   validTools))] ;;
  Console.mapM convertLogged validTools.

(** Not a function of the source: the declaration that
    [convertToolToFunctionDeclaration] is shown to return, written as a
    function of the descriptor alone. *)
Definition normalized (tool : Tool) : FunctionDeclaration :=
  {| fd_name := name tool;
     fd_description := Some (cleanDescription (description tool));
     fd_parameters :=
       Some {| par_type := OBJECT;
               par_properties :=
                 match inputSchema tool ≫= properties with
                 | Some props =>
                     convertProperty cleanDescription <$> delete "__proto__" props
                 | None => ∅
                 end;
               par_required :=
                 match inputSchema tool ≫= properties with
                 | Some _ => default [] (inputSchema tool ≫= required)
                 | None => []
                 end |} |}.

(** Not a function of the source: the tools [filterAndConvertTools] is
    meant to keep. *)
Definition Kept (tool : Tool) : Prop :=
  is_Some (inputSchema tool ≫= properties)
  ∧ serverName tool ≠ "filesystem"
  ∧ serverName tool ≠ "docker-mcp".

#[global] Instance Kept_dec tool : Decision (Kept tool).
Proof. unfold Kept. apply _. Defined.

End ToolConversion.

(** ** The converter kept in [src/components/altair/Altair.tsx] *)

Module Altair.

(** [desc || ''] *)
Definition orEmpty (desc : option string) : string := default "" desc.

Definition convertToolToFunctionDeclaration (tool : Tool) : IO FunctionDeclaration :=
  Console.log [Str ("Converting tool " +:+ name tool +:+ ":");
               Val (DSchema (inputSchema tool))] ;;
  match inputSchema tool ≫= properties with
  | None =>
      Console.ret
        {| fd_name := name tool;
           fd_description := Some (orEmpty (description tool));
           fd_parameters := Some {| par_type := OBJECT;
                                    par_properties := ∅;
                                    par_required := [] |} |}
  | Some props =>
      let* convertedProperties := convertProperties orEmpty props in
      let result :=
        {| fd_name := name tool;
           fd_description := description tool;
           fd_parameters :=
             Some {| par_type := OBJECT;
                     par_properties := convertedProperties;
                     par_required := default [] (inputSchema tool ≫= required) |} |} in
      Console.log [Str ("Converted result for " +:+ name tool +:+ ":");
                   Val (DDeclaration result)] ;;
      Console.ret result
  end.

(** Not a function of the source: the declaration the Altair copy is
    shown to return, written as a function of the descriptor alone. *)
Definition normalized (tool : Tool) : FunctionDeclaration :=
  match inputSchema tool ≫= properties with
  | Some props =>
      {| fd_name := name tool;
         fd_description := description tool;
         fd_parameters :=
           Some {| par_type := OBJECT;
                   par_properties :=
                     convertProperty orEmpty <$> delete "__proto__" props;
                   par_required := default [] (inputSchema tool ≫= required) |} |}
  | None =>
      {| fd_name := name tool;
         fd_description := Some (orEmpty (description tool));
         fd_parameters := Some {| par_type := OBJECT;
                                  par_properties := ∅;
                                  par_required := [] |} |}
  end.

End Altair.

(** ** [server/src/server.js] *)

Module Server.

(** JSON data passed through untouched (tool arguments, tool responses,
    correlation ids).  No handler looks inside a number, so integers stand
    for them. *)
#[local] Unset Elimination Schemes.
Inductive json :=
| JNull
| JBool (b : bool)
| JNumber (n : Z)
| JString (s : string)
| JArray (items : list json)
| JObject (fields : list (string * json)).
#[local] Set Elimination Schemes.

(** One entry of [mcpServers] in [mcp-config.json]. *)
Record MCPServerConfig := {
  command : option string;
  args : option (list string);
  env : option (list (string * string))
}.

(** The parsed configuration; [mcpServers] lists [Object.entries] in
    order, and is [None] when the parsed document has no such member. *)
Record Config := {
  mcpServers : option (list (string * MCPServerConfig))
}.

(** A tool as a backend reports it, before the proxy adds [serverName]. *)
Record BackendTool := {
  bt_name : string;
  bt_description : option string;
  bt_inputSchema : option InputSchema
}.

(** The SDK client object, identified by the name it is created with and
    the transport parameters (the inherited [process.env], merged under the
    configured [env], is not recorded). *)
Record Client := {
  clientName : string;
  transport : MCPServerConfig
}.

(** The values of the [mcpClients] map. *)
Record ClientInfo := {
  client : Client;
  tools : list BackendTool
}.

(** Frames the proxy writes to a WebSocket.  [requestId] is [None] when the
    member is absent from the object given to [JSON.stringify] (or is
    [undefined], which [JSON.stringify] drops). *)
Inductive Frame :=
| ToolsList (tools : list Tool)
| ToolResponse (requestId : option json) (success : bool) (result : string)
| ErrorFrame (requestId : option json) (error : string).

(** A parsed request.  Absent members are [None]; a [type] or [serverName]
    that is not a string matches no [case] label and no registry key, like
    an unknown string. *)
Record Request := {
  rtype : option string;
  r_serverName : option string;
  r_toolName : option string;
  r_args : option json;
  r_requestId : option json;
  r_message : option string
}.

(** What the process does to the outside, in order. *)
Inductive effect :=
| Print (text : string)                                  (* console.log / console.error *)
| Send (ws : nat) (frame : Frame)                        (* ws.send(JSON.stringify(frame)) *)
| Close (ws : nat)                                       (* ws.close() *)
| Invoke (c : Client) (toolName : option string) (arguments : option json).
                                                         (* client.callTool({name, arguments}) *)

(** Everything outside the process that the code consults. *)
Record World := {
  configPath : string;
  (** [fs.readFile(path, 'utf8')]: the content, or [None] when it rejects *)
  readFile : string -> option string;
  (** [JSON.parse] of the configuration text, [None] when it throws *)
  JSON_parse : string -> option Config;
  (** [client.connect(transport)]: [Some message] when it rejects *)
  connect : Client -> option string;
  (** [client.listTools()]: the error message when it rejects, otherwise
      [response.tools] ([None] when the response or its [tools] is falsy) *)
  listTools : Client -> string + option (list BackendTool);
  (** [client.callTool(...)] once settled: the message of the error it
      rejects with, or the value it resolves to *)
  callTool : Client -> option string -> option json -> string + json;
  JSON_stringify : json -> string
}.

(** The module-level state, and the effects performed so far. *)
Record State := {
  mcpClients : list (string * ClientInfo);   (* a JS [Map], in insertion order *)
  trace : list effect
}.

Inductive Result (A : Type) :=
| Ok (a : A)
| Throw (message : string).
Arguments Ok {A} a.
Arguments Throw {A} message.

(** Code that reads and writes the state and may throw. *)
Definition M (A : Type) : Type := State -> Result A * State.

Definition ret {A} (a : A) : M A := fun s => (Ok a, s).

Definition bind {A B} (m : M A) (k : A -> M B) : M B :=
  fun s => match m s with
           | (Ok a, s') => k a s'
           | (Throw e, s') => (Throw e, s')
           end.

Definition throw {A} (message : string) : M A := fun s => (Throw message, s).

(** [try { m } catch (error) { h(error.message) }] *)
Definition tryCatch {A} (m : M A) (h : string -> M A) : M A :=
  fun s => match m s with
           | (Ok a, s') => (Ok a, s')
           | (Throw e, s') => h e s'
           end.

Definition emit (e : effect) : M unit :=
  fun s => (Ok tt, {| mcpClients := mcpClients s; trace := trace s ++ [e] |}).

Definition getClients : M (list (string * ClientInfo)) :=
  fun s => (Ok (mcpClients s), s).

Definition putClients (m : list (string * ClientInfo)) : M unit :=
  fun s => (Ok tt, {| mcpClients := m; trace := trace s |}).

(** [Map.prototype.get] *)
Fixpoint map_get {V} (k : string) (m : list (string * V)) : option V :=
  match m with
  | [] => None
  | (k', v) :: m' => if decide (k = k') then Some v else map_get k m'
  end.

(** [Map.prototype.set]: an existing key keeps its position. *)
Fixpoint map_set {V} (k : string) (v : V) (m : list (string * V)) : list (string * V) :=
  match m with
  | [] => [(k, v)]
  | (k', v') :: m' =>
      if decide (k = k') then (k, v) :: m' else (k', v') :: map_set k v m'
  end.

(** A [for ... of] loop whose body may throw. *)
Fixpoint forOf {A} (body : A -> M unit) (l : list A) : M unit :=
  match l with
  | [] => ret tt
  | x :: l' => bind (body x) (fun _ => forOf body l')
  end.

(** [x === 'literal'] on a member that may be absent. *)
Definition equals (o : option string) (literal : string) : bool :=
  bool_decide (o = Some literal).

Section Handlers.

Variable W : World.

(** [log(type, message, data)]: the timestamp and the dump of [data] are
    left out of the printed line. *)
Definition log (type message : string) : M unit :=
  emit (Print ("[" +:+ type +:+ "] " +:+ message)).

(** How a template literal renders an optional string. *)
Definition show (o : option string) : string := default "undefined" o.

Definition loadConfig : M Config :=
  tryCatch
    (match readFile W (configPath W) with
     | None => throw "readFile failed"
     | Some configFile =>
         match JSON_parse W configFile with
         | None => throw "JSON.parse failed"
         | Some config => ret config
         end
     end)
    (fun error =>
       bind (emit (Print "Error loading config:")) (fun _ =>
       ret {| mcpServers := Some [] |})).

(** [new Client({name: `proxy-${name}-client`, ...})] on a
    [new StdioClientTransport({command, args: config.args || [], env})]. *)
Definition newClient (name : string) (config : MCPServerConfig) : Client :=
  {| clientName := "proxy-" +:+ name +:+ "-client";
     transport := {| command := command config;
                     args := Some (default [] (args config));
                     env := env config |} |}.

Definition initializeMCPClient (name : string) (config : MCPServerConfig)
    : M (option ClientInfo) :=
  tryCatch
    (bind (emit (Print ("Starting " +:+ name +:+ " MCP Server..."))) (fun _ =>
     let client := newClient name config in
     match connect W client with
     | Some e => throw e
     | None =>
         bind (emit (Print (name +:+ " MCP Server connected"))) (fun _ =>
         match listTools W client with
         | inl e => throw e
         | inr (Some tools) =>
             bind (emit (Print (name +:+ " MCP Server tools loaded:"))) (fun _ =>
             bind getClients (fun m =>
             bind (putClients (map_set name {| client := client; tools := tools |} m)) (fun _ =>
             ret (Some {| client := client; tools := tools |}))))
         | inr None =>
             bind (emit (Print (name +:+ " MCP Server responded but no tools found"))) (fun _ =>
             bind getClients (fun m =>
             bind (putClients (map_set name {| client := client; tools := [] |} m)) (fun _ =>
             ret (Some {| client := client; tools := [] |}))))
         end)
     end))
    (fun error =>
       bind (emit (Print ("Failed to initialize MCP client " +:+ name +:+ ":"))) (fun _ =>
       ret None)).

(** The [for (const [name, serverConfig] of Object.entries(...))] loop
    of [initializeClients]. *)
Definition initializeEntry (entry : string * MCPServerConfig) : M unit :=
  tryCatch
    (bind (initializeMCPClient entry.1 entry.2) (fun _ => ret tt))
    (fun error => emit (Print ("Failed to start " +:+ entry.1 +:+ ":"))).

Definition initializeEach (servers : list (string * MCPServerConfig)) : M unit :=
  forOf initializeEntry servers.

(** Not a function of the source: what one round of that loop does to the
    registry, used to state the effect of the loop. *)
Definition register (entry : string * MCPServerConfig)
    (m : list (string * ClientInfo)) : list (string * ClientInfo) :=
  let c := newClient entry.1 entry.2 in
  match connect W c with
  | Some _ => m
  | None =>
      match listTools W c with
      | inl _ => m
      | inr (Some tools) => map_set entry.1 {| client := c; tools := tools |} m
      | inr None => map_set entry.1 {| client := c; tools := [] |} m
      end
  end.

Definition initializeClients : M unit :=
  bind loadConfig (fun config =>
  match mcpServers config with
  | None => throw "TypeError: Cannot convert undefined or null to object"
  | Some servers =>
      bind (emit (Print "Loading MCP servers from config:")) (fun _ =>
      initializeEach servers)
  end).

(** [{...tool, serverName}] *)
Definition withServer (serverName : string) (tool : BackendTool) : Tool :=
  {| name := bt_name tool;
     description := bt_description tool;
     serverName := serverName;
     inputSchema := bt_inputSchema tool |}.

(** [Array.from(mcpClients.entries()).flatMap(([serverName, {tools}]) =>
      (tools || []).map(tool => ({...tool, serverName})))] *)
Definition allTools (m : list (string * ClientInfo)) : list Tool :=
  flat_map (fun e : string * ClientInfo => map (withServer e.1) (tools e.2)) m.

(** [wss.on('connection', ...)] up to the registration of the handlers. *)
Definition connection (ws : nat) : M unit :=
  bind (log "CONNECTION" "New client connected") (fun _ =>
  bind getClients (fun m =>
  bind (log "TOOLS_INIT" "Sending initial tools list") (fun _ =>
  emit (Send ws (ToolsList (allTools m)))))).

(** The [call_tool] case, after the registry lookup has succeeded. *)
Definition callToolCase (ws : nat) (clientInfo : ClientInfo) (request : Request)
    : M unit :=
  tryCatch
    (bind (log "TOOL_DEBUG" "Original tool schema:") (fun _ =>
     bind (emit (Invoke (client clientInfo) (r_toolName request) (r_args request))) (fun _ =>
     match callTool W (client clientInfo) (r_toolName request) (r_args request) with
     | inl e => throw e
     | inr toolResponse =>
         bind (log "TOOL_RESPONSE"
                   ("Tool " +:+ show (r_toolName request) +:+ " executed successfully")) (fun _ =>
         emit (Send ws (ToolResponse (r_requestId request) true
                          match toolResponse with
                          | JString s => s
                          | _ => JSON_stringify W toolResponse
                          end)))
     end)))
    (fun error =>
       bind (log "TOOL_ERROR"
                 ("Tool " +:+ show (r_toolName request) +:+ " execution failed")) (fun _ =>
       emit (Send ws (ErrorFrame (r_requestId request)
                        ("Tool execution failed: " +:+ error))))).

(** [ws.on('message', async function incoming(message) ...)].  The
    message is given as what [JSON.parse] makes of it: the message of the
    [SyntaxError], or the request. *)
Definition incoming (ws : nat) (parsed : string + Request) : M unit :=
  tryCatch
    (match parsed with
     | inl e => throw e
     | inr request =>
         bind (log "REQUEST" ("Received " +:+ show (rtype request) +:+ " request")) (fun _ =>
         if equals (rtype request) "list_tools" then
           bind getClients (fun m =>
           bind (log "TOOLS_LIST" "Sending tools list") (fun _ =>
           emit (Send ws (ToolsList (allTools m)))))
         else if equals (rtype request) "client_log" then
           log "CLIENT" (show (r_message request))
         else if equals (rtype request) "call_tool" then
           bind (log "TOOL_CALL"
                     ("Calling tool " +:+ show (r_toolName request) +:+ " on server "
                      +:+ show (r_serverName request))) (fun _ =>
           bind getClients (fun m =>
           match r_serverName request ≫= (fun k => map_get k m) with
           | None =>
               throw ("MCP server " +:+ show (r_serverName request) +:+ " not found")
           | Some clientInfo => callToolCase ws clientInfo request
           end))
         else
           bind (log "ERROR" ("Unknown request type: " +:+ show (rtype request))) (fun _ =>
           throw ("Unknown request type: " +:+ show (rtype request))))
     end)
    (fun error =>
       bind (log "ERROR" "Request processing failed") (fun _ =>
       emit (Send ws (ErrorFrame None error)))).

(** [ws.on('close', ...)] *)
Definition closed (ws : nat) : M unit :=
  log "CONNECTION" "Client disconnected".

(** The remaining definitions are not functions of the source: they
    arrange the handlers as a transition system and read its trace. *)

(** What can happen once the proxy is up.  The proxy registers no
    handler for a backend's child process exiting: that event reaches no
    code of the server. *)
Inductive Event :=
| Connection (ws : nat)
| Message (ws : nat) (parsed : string + Request)
| Closed (ws : nat)
| BackendExit (serverName : string).

Definition handle (ev : Event) : M unit :=
  match ev with
  | Connection ws => connection ws
  | Message ws parsed => incoming ws parsed
  | Closed ws => closed ws
  | BackendExit _ => ret tt
  end.

(** The state after an event; an exception escaping a handler is an
    unhandled rejection and leaves the state as the handler left it. *)
Definition step (s : State) (ev : Event) : State := snd (handle ev s).

Definition run (s : State) (evs : list Event) : State := foldl step s evs.

(** The backends whose child process has exited during [evs]. *)
Definition exited (evs : list Event) : list string :=
  flat_map (fun ev => match ev with BackendExit n => [n] | _ => [] end) evs.

(** The effects a computation adds to the trace. *)
Definition effectsOf {A} (m : M A) (s : State) : list effect :=
  drop (length (trace s)) (trace (snd (m s))).

Definition isSend (e : effect) : bool :=
  match e with Send _ _ => true | _ => false end.

Definition isInvoke (e : effect) : bool :=
  match e with Invoke _ _ _ => true | _ => false end.

Definition isClose (e : effect) : bool :=
  match e with Close _ => true | _ => false end.

Definition initialState : State := {| mcpClients := []; trace := [] |}.

End Handlers.

End Server.

(** ** [src/lib/mcp-client-manager.ts] *)

Module Client.

Import Server.

(** A message from the proxy, as [JSON.parse] returns it.  [m_requestId] is
    [None] when the member is absent or is not a string: the table is a
    [Map<string, ...>], so no other key is ever found in it. *)
Record ServerMessage := {
  mtype : option string;
  m_tools : list Tool;
  m_requestId : option string;
  m_response : option json;
  m_error : option string
}.

(** The objects given to [sendOrQueue]. *)
Inductive Outgoing :=
| ListTools
| CallTool (requestId serverName toolName : string) (args : json).

(** What a promise of this module is resolved with. *)
Inductive Value :=
| Response (response : option json)      (* [callTool]: [message.response] *)
| ClientInfo (tools : list Tool).        (* [createMCPClient]: [{ tools }] *)

(** [MCPWebSocketClient] and the promises its methods create.  A promise
    is named by a number.  The only functions ever stored in
    [messageHandlers] and [toolsUpdateCallback] are the [resolve] of such a
    promise (wrapped, for the callback), so the tables hold the promise
    they resolve.  [settled] has an entry once a promise is resolved; no
    [reject] is kept anywhere, so a promise is either resolved or pending. *)
Record State := {
  messageHandlers : gmap string nat;
  toolsUpdateCallback : option nat;
  connected : bool;
  messageQueue : list Outgoing;
  sent : list Outgoing;
  settled : gmap nat Value;
  nextPromise : nat;
  console : list string
}.

Definition set_messageHandlers (f : gmap string nat -> gmap string nat) (s : State) :=
  {| messageHandlers := f (messageHandlers s);
     toolsUpdateCallback := toolsUpdateCallback s; connected := connected s;
     messageQueue := messageQueue s; sent := sent s; settled := settled s;
     nextPromise := nextPromise s; console := console s |}.

Definition set_toolsUpdateCallback (c : option nat) (s : State) :=
  {| messageHandlers := messageHandlers s;
     toolsUpdateCallback := c; connected := connected s;
     messageQueue := messageQueue s; sent := sent s; settled := settled s;
     nextPromise := nextPromise s; console := console s |}.

Definition set_connected (b : bool) (s : State) :=
  {| messageHandlers := messageHandlers s;
     toolsUpdateCallback := toolsUpdateCallback s; connected := b;
     messageQueue := messageQueue s; sent := sent s; settled := settled s;
     nextPromise := nextPromise s; console := console s |}.

Definition set_queues (q out : list Outgoing) (s : State) :=
  {| messageHandlers := messageHandlers s;
     toolsUpdateCallback := toolsUpdateCallback s; connected := connected s;
     messageQueue := q; sent := out; settled := settled s;
     nextPromise := nextPromise s; console := console s |}.

Definition set_settled (f : gmap nat Value -> gmap nat Value) (s : State) :=
  {| messageHandlers := messageHandlers s;
     toolsUpdateCallback := toolsUpdateCallback s; connected := connected s;
     messageQueue := messageQueue s; sent := sent s; settled := f (settled s);
     nextPromise := nextPromise s; console := console s |}.

Definition set_nextPromise (n : nat) (s : State) :=
  {| messageHandlers := messageHandlers s;
     toolsUpdateCallback := toolsUpdateCallback s; connected := connected s;
     messageQueue := messageQueue s; sent := sent s; settled := settled s;
     nextPromise := n; console := console s |}.

Definition print (line : string) (s : State) :=
  {| messageHandlers := messageHandlers s;
     toolsUpdateCallback := toolsUpdateCallback s; connected := connected s;
     messageQueue := messageQueue s; sent := sent s; settled := settled s;
     nextPromise := nextPromise s; console := console s ++ [line] |}.

(** The state of a freshly constructed client. *)
Definition new : State :=
  {| messageHandlers := ∅; toolsUpdateCallback := None; connected := false;
     messageQueue := []; sent := []; settled := ∅; nextPromise := 0;
     console := [] |}.

(** [new Promise(...)]: the next unused name. *)
Definition newPromise (s : State) : nat * State :=
  (nextPromise s, set_nextPromise (S (nextPromise s)) s).

(** Calling a promise's [resolve]: only the first call settles it. *)
Definition resolve (p : nat) (v : Value) (s : State) : State :=
  match settled s !! p with
  | Some _ => s
  | None => set_settled (insert p v) s
  end.

(** [ws.onopen]: the queue is drained in order. *)
Definition onopen (s : State) : State :=
  set_queues [] (sent s ++ messageQueue s) (set_connected true s).

Definition onmessage (message : ServerMessage) (s : State) : State :=
  if equals (mtype message) "tools_list" then
    match toolsUpdateCallback s with
    | Some callback => resolve callback (ClientInfo (m_tools message)) s
    | None => s
    end
  else if equals (mtype message) "tool_response" then
    match m_requestId message ≫= (fun k => messageHandlers s !! k) with
    | Some handler =>
        set_messageHandlers
          (fun h => match m_requestId message with
                    | Some k => delete k h
                    | None => h
                    end)
          (resolve handler (Response (m_response message)) s)
    | None => s
    end
  else if equals (mtype message) "error" then
    print ("MCP server error: " +:+ default "undefined" (m_error message)) s
  else s.

Definition onclose (s : State) : State :=
  print "WebSocket connection closed" (set_connected false s).

Definition sendOrQueue (message : Outgoing) (s : State) : State :=
  if connected s
  then set_queues (messageQueue s) (sent s ++ [message]) s
  else set_queues (messageQueue s ++ [message]) (sent s) s.

(** [onToolsUpdate(callback)], with the callback given as the promise it
    resolves. *)
Definition onToolsUpdate (callback : nat) (s : State) : State :=
  sendOrQueue ListTools (set_toolsUpdateCallback (Some callback) s).

(** [callTool]; [requestId] is what
    [Math.random().toString(36).substring(7)] evaluates to.  Returns the
    promise. *)
Definition callTool (requestId serverName toolName : string) (args : json)
    (s : State) : nat * State :=
  let (p, s1) := newPromise s in
  (p, sendOrQueue (CallTool requestId serverName toolName args)
        (set_messageHandlers (insert requestId p) s1)).

Definition createMCPClient (s : State) : nat * State :=
  let (p, s1) := newPromise s in
  (p, onToolsUpdate p s1).

(** Receiving a sequence of messages. *)
Definition receive (s : State) (messages : list ServerMessage) : State :=
  foldl (fun st m => onmessage m st) s messages.

(** A [tool_response] frame for the correlation id [k]. *)
Definition respondsTo (k : string) (message : ServerMessage) : bool :=
  equals (mtype message) "tool_response" && bool_decide (m_requestId message = Some k).

(** The remaining definitions are not in the source; they state what the
    tables hold. *)

(** No table refers to promise [p] and it is not settled. *)
Definition Unused (p : nat) (s : State) : Prop :=
  settled s !! p = None
  ∧ toolsUpdateCallback s ≠ Some p
  ∧ ∀ k, messageHandlers s !! k ≠ Some p.

(** The catalog callback resolves [p], which is still pending, and no call
    waits on [p]. *)
Definition Awaited (p : nat) (s : State) : Prop :=
  toolsUpdateCallback s = Some p
  ∧ settled s !! p = None
  ∧ ∀ k, messageHandlers s !! k ≠ Some p.

(** Promise names are handed out in increasing order. *)
Definition WellFormed (s : State) : Prop :=
  ∀ p, (nextPromise s ≤ p)%nat → Unused p s.

(** The call registered under [k] is waiting on [p], and only it can
    resolve [p]. *)
Definition Pending (k : string) (p : nat) (s : State) : Prop :=
  messageHandlers s !! k = Some p
  ∧ settled s !! p = None
  ∧ toolsUpdateCallback s ≠ Some p
  ∧ ∀ k', k' ≠ k → messageHandlers s !! k' ≠ Some p.

End Client.

(** ** A concrete deployment, used to exercise the statements *)

Module Demo.

Import Server.

Definition serverA : MCPServerConfig :=
  {| command := Some "node"; args := Some ["a.js"]; env := None |}.

Definition serverB : MCPServerConfig :=
  {| command := Some "missing-binary"; args := None; env := None |}.

Definition read_file : BackendTool :=
  {| bt_name := "read_file"; bt_description := Some "Read a file";
     bt_inputSchema := None |}.

(** Two providers are configured; [b] cannot be spawned. *)
Definition world : World :=
  {| configPath := "mcp-config.json";
     readFile := fun path =>
       if decide (path = "mcp-config.json") then Some "{...}" else None;
     JSON_parse := fun _ =>
       Some {| mcpServers := Some [("a", serverA); ("b", serverB)] |};
     connect := fun c =>
       if decide (clientName c = "proxy-b-client") then Some "spawn ENOENT" else None;
     listTools := fun _ => inr (Some [read_file]);
     callTool := fun _ toolName _ =>
       if decide (toolName = Some "read_file")
       then inr (JString "contents")
       else inl "Unknown tool";
     JSON_stringify := fun _ => "{}" |}.

(** The same deployment with an unreadable configuration file. *)
Definition unconfigured : World :=
  {| configPath := configPath world;
     readFile := fun _ => None;
     JSON_parse := JSON_parse world;
     connect := connect world;
     listTools := listTools world;
     callTool := callTool world;
     JSON_stringify := JSON_stringify world |}.

(** The proxy once [initializeClients] has returned. *)
Definition started : State := snd (initializeClients world initialState).

Definition request (type : string) (server : option string) (id : option json)
    : Request :=
  {| rtype := Some type; r_serverName := server;
     r_toolName := Some "read_file"; r_args := Some (JObject []);
     r_requestId := id; r_message := None |}.

(** A descriptor with one array field, [paths], that declares no items. *)
Definition pathsProperty : Property :=
  {| prop_type := Some "array"; prop_items := None;
     prop_description := Some "files to read" |}.

Definition pathsSchema : InputSchema :=
  {| schema_uri := None; schema_type := Some "object";
     properties := Some {[ "paths" := pathsProperty ]};
     required := None; additionalProperties := None |}.

Definition readFiles : Tool :=
  {| name := "read_files"; description := Some "Read several files";
     serverName := "github"; inputSchema := Some pathsSchema |}.

(** A descriptor whose one field, an array without items, is named
    [__proto__]. *)
Definition protoSchema : InputSchema :=
  {| schema_uri := None; schema_type := Some "object";
     properties := Some {[ "__proto__" := pathsProperty ]};
     required := None; additionalProperties := None |}.

Definition protoTool : Tool :=
  {| name := "read_files"; description := None;
     serverName := "github"; inputSchema := Some protoSchema |}.

(** Messages the browser client may receive. *)
Definition toolFailed : Client.ServerMessage :=
  {| Client.mtype := Some "error"; Client.m_tools := []; Client.m_requestId := Some "k3x9";
     Client.m_response := None; Client.m_error := Some "Tool execution failed: boom" |}.

Definition otherResponse : Client.ServerMessage :=
  {| Client.mtype := Some "tool_response"; Client.m_tools := []; Client.m_requestId := Some "p0q1";
     Client.m_response := Some (JString "ok"); Client.m_error := None |}.

Definition catalogPush : Client.ServerMessage :=
  {| Client.mtype := Some "tools_list"; Client.m_tools := []; Client.m_requestId := None;
     Client.m_response := None; Client.m_error := None |}.

End Demo.

(** ** Vocabulary for statements about the proxy *)

Module Protocol.

Import Server.

(** Not in the source.  A request of kind [client_log], the one kind the
    proxy never answers. *)
Definition isClientLog (parsed : string + Request) : bool :=
  match parsed with
  | inr request => equals (rtype request) "client_log"
  | inl _ => false
  end.

(** Not in the source.  The frames among a list of effects, with the socket
    they were written to. *)
Definition frames (es : list effect) : list (nat * Frame) :=
  flat_map (fun e => match e with Send ws f => [(ws, f)] | _ => [] end) es.

(** Not in the source.  The backend calls among a list of effects. *)
Definition invocations (es : list effect)
    : list (Client * option string * option json) :=
  flat_map (fun e => match e with Invoke c n a => [(c, n, a)] | _ => [] end) es.

(** Not in the source.  A configured provider whose [connect] and
    [listTools] both succeed. *)
Definition starts (W : World) (entry : string * MCPServerConfig) : bool :=
  match connect W (newClient entry.1 entry.2) with
  | Some _ => false
  | None =>
      match listTools W (newClient entry.1 entry.2) with
      | inl _ => false
      | inr _ => true
      end
  end.

(** Not in the source.  The registry entry such a provider ends up with. *)
Definition registered (W : World) (entry : string * MCPServerConfig)
    : string * ClientInfo :=
  (entry.1,
   {| client := newClient entry.1 entry.2;
      tools := match listTools W (newClient entry.1 entry.2) with
               | inr (Some tools) => tools
               | _ => []
               end |}).

End Protocol.

(** ** Further deployments *)

Module Scenario.

Import Server.

Definition serverC : MCPServerConfig :=
  {| command := Some "node"; args := Some ["c.js"]; env := None |}.

Definition write_file : BackendTool :=
  {| bt_name := "write_file"; bt_description := None; bt_inputSchema := None |}.

(** Providers [a] and [c] both offer a tool called read_file; [b], between
    them in the configuration, cannot be spawned.  A call is answered with
    the name of the client that served it. *)
Definition twins : World :=
  {| configPath := "mcp-config.json";
     readFile := fun _ => Some "{...}";
     JSON_parse := fun _ =>
       Some {| mcpServers := Some [("a", Demo.serverA); ("b", Demo.serverB);
                                   ("c", serverC)] |};
     connect := connect Demo.world;
     listTools := fun c =>
       if decide (clientName c = "proxy-c-client")
       then inr (Some [Demo.read_file; write_file])
       else inr (Some [Demo.read_file]);
     callTool := fun c _ _ => inr (JString (clientName c));
     JSON_stringify := fun _ => "{}" |}.

Definition twinsStarted : State := snd (initializeClients twins initialState).

(** A configuration file that parses but has no [mcpServers] member. *)
Definition misconfigured : World :=
  {| configPath := configPath twins;
     readFile := readFile twins;
     JSON_parse := fun _ => Some {| mcpServers := None |};
     connect := connect twins;
     listTools := listTools twins;
     callTool := callTool twins;
     JSON_stringify := JSON_stringify twins |}.

(** A descriptor with an array of objects and an integer field. *)
Definition nestedProperty : Property :=
  {| prop_type := Some "array";
     prop_items :=
       Some {| items_type := Some "object";
               items_properties :=
                 Some {[ "path" := {| sub_type := Some "string";
                                      sub_description := Some "the `path`" |} ]};
               items_required := None |};
     prop_description := None |}.

Definition editFiles : Tool :=
  {| name := "edit_files"; description := Some "Edit 'several' files";
     serverName := "github";
     inputSchema :=
       Some {| schema_uri := None; schema_type := Some "object";
               properties := Some {[ "edits" := nestedProperty;
                                     "count" := {| prop_type := Some "integer";
                                                   prop_items := None;
                                                   prop_description := None |} ]};
               required := Some ["edits"]; additionalProperties := None |} |}.

(** A descriptor with a [required] list and an array field without
    items. *)
Definition listFiles : Tool :=
  {| name := "list_files"; description := None; serverName := "github";
     inputSchema :=
       Some {| schema_uri := None; schema_type := Some "object";
               properties := Some {[ "paths" := Demo.pathsProperty ]};
               required := Some ["paths"]; additionalProperties := None |} |}.

(** Tools as the component holds them. *)
Definition githubTool (n : string) : Tool :=
  {| name := n; description := None; serverName := "github";
     inputSchema := Some Demo.pathsSchema |}.

Definition filesystemTool (n : string) : Tool :=
  {| name := n; description := None; serverName := "filesystem";
     inputSchema := Some Demo.pathsSchema |}.

(** A catalog frame that lists one tool. *)
Definition fullCatalog : Client.ServerMessage :=
  {| Client.mtype := Some "tools_list"; Client.m_tools := [Demo.readFiles];
     Client.m_requestId := None; Client.m_response := None;
     Client.m_error := None |}.

End Scenario.

(** ** The Altair component: [src/components/altair/Altair.tsx] and its
    earlier revision *)

Module Component.

Import Server.

(** [!x] for an optional string: absent or empty. *)
Definition falsy (o : option string) : bool :=
  match o with
  | None => true
  | Some s => bool_decide (s = "")
  end.

(** [arr.every(p)] where the callback may log: it stops at the first
    element that fails. *)
Fixpoint everyM {A} (p : A -> IO bool) (l : list A) : IO bool :=
  match l with
  | [] => Console.ret true
  | x :: l' =>
      let* ok := p x in
      if ok then everyM p l' else Console.ret false
  end.

(** The callback of [Object.entries(properties).every] in
    [isValidToolSchema]. *)
Definition validProperty (toolName : string) (kv : string * Property) : IO bool :=
  if falsy (prop_type kv.2) then
    Console.log [Str ("Tool " +:+ toolName +:+ " skipped: Property " +:+ kv.1
                      +:+ " missing type")] ;;
    Console.ret false
  else
    match (if bool_decide (prop_type kv.2 = Some "array")
           then prop_items kv.2 else None) with
    | Some items =>
        if falsy (items_type items) then
          Console.log [Str ("Tool " +:+ toolName
                            +:+ " skipped: Array items missing type in property "
                            +:+ kv.1)] ;;
          Console.ret false
        else if bool_decide (items_type items = Some "object")
                && (bool_decide (items_properties items = None)
                    || bool_decide (items_required items = None)) then
          Console.log [Str ("Tool " +:+ toolName
                            +:+ " skipped: Invalid object items in array property "
                            +:+ kv.1)] ;;
          Console.ret false
        else Console.ret true
    | None => Console.ret true
    end.

(** [isValidToolSchema] of the earlier revision of the component. *)
Definition isValidToolSchema (tool : Tool) : IO bool :=
  match inputSchema tool ≫= properties with
  | None =>
      Console.log [Str ("Tool " +:+ name tool
                        +:+ " skipped: Missing inputSchema or properties")] ;;
      Console.ret false
  | Some props =>
      match inputSchema tool ≫= required with
      | None =>
          Console.log [Str ("Tool " +:+ name tool
                            +:+ " skipped: Missing or invalid required fields")] ;;
          Console.ret false
      | Some _ =>
          let* hasValidProperties :=
            everyM (validProperty (name tool)) (map_to_list props) in
          if hasValidProperties then Console.ret true else Console.ret false
      end
  end.

(** [arr.findIndex(p)] *)
Fixpoint findIndex {A} (p : A -> bool) (l : list A) : Z :=
  match l with
  | [] => (-1)%Z
  | x :: l' =>
      if p x then 0%Z
      else if (findIndex p l' <? 0)%Z then (-1)%Z else (findIndex p l' + 1)%Z
  end.

(** A relative index of [Array.prototype.slice]: negative indices count
    from the end, and the result is clamped to the array. *)
Definition relativeIndex (len k : Z) : Z :=
  if (k <? 0)%Z then Z.max (len + k) 0 else Z.min k len.

(** [arr.slice(start, end)] *)
Definition slice {A} (start finish : Z) (l : list A) : list A :=
  let len := Z.of_nat (length l) in
  let from := relativeIndex len start in
  let to := relativeIndex len finish in
  take (Z.to_nat (to - from)) (drop (Z.to_nat from) l).

(** The callback of [mcpTools.findIndex]: a filesystem tool without
    [$schema]. *)
Definition withoutSchema (tool : Tool) : bool :=
  bool_decide (serverName tool = "filesystem")
  && falsy (inputSchema tool ≫= schema_uri).

(** The tools the earlier revision converts: [selectedTools] of its second
    effect. *)
Definition selectedTools (mcpTools : list Tool) : list Tool :=
  let lastFilesystemTool := findIndex withoutSchema mcpTools in
  slice 0 lastFilesystemTool mcpTools
  ++ slice (lastFilesystemTool + 1) (Z.of_nat (length mcpTools) - 1) mcpTools.

(** The objects the component gives to [ws.send(JSON.stringify(...))]. *)
Inductive Sent :=
| SchemaIssue (tool server issue : string)
    (* {type: 'tool_schema_issue', tool, server, issue} *)
| ClientLog (message tool server issue : string) (schema : option InputSchema)
    (* {type: 'client_log', message, data: {tool, server, issue, schema}} *)
| CallTool (toolName serverName : string) (args requestId : option json).
    (* {type: 'call_tool', toolName, serverName, args, requestId} *)

(** What the component does to the outside. *)
Inductive effect :=
| Log (line : string)                              (* console.log / console.error *)
| WsSend (message : Sent)                          (* ws.send(JSON.stringify(message)) *)
| Respond (id : option json) (error : string).
    (* client.sendToolResponse({functionResponses: [{response: {error}, id}]}) *)

(** The socket held by the component: [null], or a socket that is open or
    not. *)
Inductive Socket := NoSocket | Ws (isOpen : bool).

(** [logToolSchemaIssue] of [src/utils/toolConversion.ts]: it sends on any
    socket that is not [null]. *)
Definition logToolSchemaIssue (ws : Socket) (tool : Tool) (issue : string)
    : list effect :=
  Log ("Schema issue for tool " +:+ name tool +:+ " from server "
       +:+ serverName tool +:+ ": " +:+ issue)
  :: match ws with
     | NoSocket => []
     | Ws _ => [WsSend (SchemaIssue (name tool) (serverName tool) issue)]
     end.

(** [logToolSchemaIssue] of the earlier revision of the component: it sends
    only on an open socket, and prints nothing. *)
Definition logToolSchemaIssueEarlier (ws : Socket) (tool : Tool) (issue : string)
    : list effect :=
  match ws with
  | Ws true =>
      [WsSend (ClientLog ("Tool Schema Issue: " +:+ name tool) (name tool)
                         (serverName tool) issue (inputSchema tool))]
  | _ => []
  end.

(** One function call of a tool call from the model. *)
Record FunctionCall := {
  fc_name : string;
  fc_args : option json;
  fc_id : option json
}.

(** The body of [toolCall.functionCalls.forEach] in [onToolCall]. *)
Definition onFunctionCall (mcpTools : list Tool) (ws : Socket) (fc : FunctionCall)
    : list effect :=
  match find (fun tool => bool_decide (name tool = fc_name fc)) mcpTools with
  | None =>
      [ Log ("Tool " +:+ fc_name fc +:+ " not found in MCP tools");
        Respond (fc_id fc) ("Tool " +:+ fc_name fc +:+ " not found") ]
  | Some mcpTool =>
      Log "Sending MCP tool request:"
      :: match ws with
         | Ws true =>
             [ WsSend (CallTool (name mcpTool) (serverName mcpTool)
                                (fc_args fc) (fc_id fc)) ]
         | _ =>
             [ Log "WebSocket is not open";
               Respond (fc_id fc) "WebSocket connection is not available" ]
         end
  end.

Definition onToolCall (mcpTools : list Tool) (ws : Socket)
    (functionCalls : list FunctionCall) : list effect :=
  Log "Received tool call from Gemini:"
  :: flat_map (onFunctionCall mcpTools ws) functionCalls.

(** What the proxy's [JSON.parse] and member reads make of an object the
    component sent.  The proxy reads [type], [serverName], [toolName],
    [args], [requestId] and [message] only. *)
Definition asRequest (m : Sent) : Request :=
  match m with
  | SchemaIssue _ _ _ =>
      {| rtype := Some "tool_schema_issue"; r_serverName := None;
         r_toolName := None; r_args := None; r_requestId := None;
         r_message := None |}
  | ClientLog message _ _ _ _ =>
      {| rtype := Some "client_log"; r_serverName := None; r_toolName := None;
         r_args := None; r_requestId := None; r_message := Some message |}
  | CallTool toolName serverName args requestId =>
      {| rtype := Some "call_tool"; r_serverName := Some serverName;
         r_toolName := Some toolName; r_args := args; r_requestId := requestId;
         r_message := None |}
  end.

(** Not in the source.  The objects sent, and the error responses given to
    the model, among a list of effects. *)
Definition sends (es : list effect) : list Sent :=
  flat_map (fun e => match e with WsSend m => [m] | _ => [] end) es.

Definition responses (es : list effect) : list (option json * string) :=
  flat_map (fun e => match e with Respond id error => [(id, error)] | _ => [] end) es.

(** Not in the source.  What a list of effects does for the model's
    calls, in order: an object put on the socket, or an error response given
    back to the model.  Lines on the console are left out. *)
Definition outcomes (es : list effect) : list (Sent + option json * string) :=
  flat_map (fun e => match e with
                     | WsSend m => [inl m]
                     | Respond id error => [inr (id, error)]
                     | Log _ => []
                     end) es.

(** Not in the source.  The outcome [o] settles the function call [fc]: it
    is a [call_tool] request for [fc], carrying its name, arguments and id,
    addressed to the server of a tool of that name, on an open socket; or it
    is an error response carrying the id of [fc], given because no tool has
    the name of [fc] or because the socket is not open. *)
Definition settles (mcpTools : list Tool) (ws : Socket) (fc : FunctionCall)
    (o : Sent + option json * string) : Prop :=
  match o with
  | inl m =>
      ws = Ws true
      ∧ ∃ tool, tool ∈ mcpTools ∧ name tool = fc_name fc
                ∧ m = CallTool (fc_name fc) (serverName tool) (fc_args fc) (fc_id fc)
  | inr (id, error) =>
      id = fc_id fc
      ∧ ((∀ tool, tool ∈ mcpTools → name tool ≠ fc_name fc)
         ∧ error = "Tool " +:+ fc_name fc +:+ " not found"
         ∨ ws ≠ Ws true ∧ error = "WebSocket connection is not available")
  end.

(** Not in the source.  What [isValidToolSchema] requires of a property and
    of a tool. *)
Definition ValidProperty (prop : Property) : Prop :=
  falsy (prop_type prop) = false
  ∧ (prop_type prop = Some "array" →
     ∀ items, prop_items prop = Some items →
       falsy (items_type items) = false
       ∧ (items_type items = Some "object" →
          is_Some (items_properties items) ∧ is_Some (items_required items))).

(** Not in the source.  What [validProperty] returns, without the
    console. *)
Definition validPropertyResult (prop : Property) : bool :=
  negb (falsy (prop_type prop))
  && match (if bool_decide (prop_type prop = Some "array")
            then prop_items prop else None) with
     | Some items =>
         negb (falsy (items_type items))
         && negb (bool_decide (items_type items = Some "object")
                  && (bool_decide (items_properties items = None)
                      || bool_decide (items_required items = None)))
     | None => true
     end.

Definition Valid (tool : Tool) : Prop :=
  ∃ props, inputSchema tool ≫= properties = Some props
           ∧ is_Some (inputSchema tool ≫= required)
           ∧ ∀ key prop, props !! key = Some prop → ValidProperty prop.

End Component.

(** ** The client and the proxy on one socket *)

Module Wire.

Import Server.

(** What the proxy's [JSON.parse] and its reads of [type], [serverName],
    [toolName], [args], [requestId] and [message] make of an object the
    browser client gave to [ws.send(JSON.stringify(...))]. *)
Definition asRequest (m : Client.Outgoing) : Request :=
  match m with
  | Client.ListTools =>
      {| rtype := Some "list_tools"; r_serverName := None; r_toolName := None;
         r_args := None; r_requestId := None; r_message := None |}
  | Client.CallTool requestId serverName toolName args =>
      {| rtype := Some "call_tool"; r_serverName := Some serverName;
         r_toolName := Some toolName; r_args := Some args;
         r_requestId := Some (JString requestId); r_message := None |}
  end.

(** A correlation id as a key of the client's [Map<string, ...>]. *)
Definition stringId (id : option json) : option string :=
  match id with
  | Some (JString k) => Some k
  | _ => None
  end.

(** What the client's [JSON.parse] and its reads of [type], [tools],
    [requestId], [response] and [error] make of a frame of the proxy.  The
    response of a [tool_response] frame is the object
    [{output: {success, result}}]. *)
Definition asMessage (f : Frame) : Client.ServerMessage :=
  match f with
  | ToolsList tools =>
      {| Client.mtype := Some "tools_list"; Client.m_tools := tools;
         Client.m_requestId := None; Client.m_response := None;
         Client.m_error := None |}
  | ToolResponse requestId success result =>
      {| Client.mtype := Some "tool_response"; Client.m_tools := [];
         Client.m_requestId := stringId requestId;
         Client.m_response :=
           Some (JObject [("output", JObject [("success", JBool success);
                                              ("result", JString result)])]);
         Client.m_error := None |}
  | ErrorFrame requestId error =>
      {| Client.mtype := Some "error"; Client.m_tools := [];
         Client.m_requestId := stringId requestId; Client.m_response := None;
         Client.m_error := Some error |}
  end.

(** The frames written to socket [ws] among a list of effects. *)
Definition framesFor (ws : nat) (es : list effect) : list Frame :=
  flat_map (fun e => match e with
                     | Send ws' f => if decide (ws' = ws) then [f] else []
                     | _ => []
                     end) es.

(** The proxy handles, one after the other, the objects the client put on
    socket [ws]; the result is what it wrote back to that socket. *)
Fixpoint serve (W : World) (ws : nat) (messages : list Client.Outgoing)
    (proxy : State) : list Frame :=
  match messages with
  | [] => []
  | m :: rest =>
      framesFor ws (effectsOf (incoming W ws (inr (asRequest m))) proxy)
      ++ serve W ws rest (snd (incoming W ws (inr (asRequest m)) proxy))
  end.

(** One exchange: the client calls a tool, the proxy handles what this put
    on the socket, and the client receives what the proxy wrote back.
    Returns the promise of the call and the client afterwards. *)
Definition exchange (W : World) (ws : nat) (proxy : State) (c : Client.State)
    (k server tool : string) (args : json) : nat * Client.State :=
  let call := Client.callTool k server tool args c in
  let delivered := drop (length (Client.sent c)) (Client.sent call.2) in
  (call.1, Client.receive call.2 (map asMessage (serve W ws delivered proxy))).

(** The same for [createMCPClient]: the client asks for the catalog, the
    proxy handles what this put on the socket, and the client receives what
    the proxy wrote back. *)
Definition discover (W : World) (ws : nat) (proxy : State) (c : Client.State)
    : nat * Client.State :=
  let call := Client.createMCPClient c in
  let delivered := drop (length (Client.sent c)) (Client.sent call.2) in
  (call.1, Client.receive call.2 (map asMessage (serve W ws delivered proxy))).

End Wire.

(** ** Vocabulary for statements about converted schemas *)

Module SchemaShape.

(** Not in the source.  A string without apostrophe, double quote or
    backtick. *)
Fixpoint quoteFree (s : string) : bool :=
  match s with
  | EmptyString => true
  | String a s' => negb (ToolConversion.isQuote a) && quoteFree s'
  end.

(** Not in the source.  The types the converters give to a field that is
    not an array. *)
Definition scalar (t : SchemaType) : Prop :=
  t = STRING ∨ t = NUMBER ∨ t = BOOLEAN ∨ t = OBJECT.

(** Not in the source.  The shape of a converted property: an array has
    items and nothing else has; items have a scalar type; items carry
    nested properties exactly when they carry a required list, and the
    nested properties have scalar types. *)
Definition wellShaped (cp : ConvertedProp) : Prop :=
  match cp_items cp with
  | None => scalar (cp_type cp)
  | Some items =>
      cp_type cp = ARRAY
      ∧ scalar (ci_type items)
      ∧ (is_Some (ci_properties items) ↔ is_Some (ci_required items))
      ∧ ∀ nested key sub, ci_properties items = Some nested →
                          nested !! key = Some sub → scalar (cs_type sub)
  end.

End SchemaShape.

(** * Properties *)

(** ** Console computations write a fixed output after whatever is there *)

Module ConsoleFacts.

Import Console.

Lemma writes_ret {V A} (a : A) : writes (V := V) (ret a) a [].
Proof. intros c. unfold ret. by rewrite app_nil_r. Qed.

Lemma writes_log {V} (args : list (arg V)) : writes (log args) tt [args].
Proof. by intros c. Qed.

Lemma writes_bind {V A B} (m : IO V A) (k : A -> IO V B) a b o1 o2 :
  writes m a o1 → writes (k a) b o2 → writes (bind m k) b (o1 ++ o2)%list.
Proof.
  intros Hm Hk c. unfold bind. rewrite Hm, Hk. by rewrite app_assoc.
Qed.

Lemma writes_foldM {V A S} (f : S -> A -> IO V S) (g : S -> A -> S) l :
  (∀ s x, ∃ o, writes (f s x) (g s x) o) →
  ∀ s, ∃ o, writes (foldM f s l) (foldl g s l) o.
Proof.
  intros Hf. induction l as [|x l IH]; intros s; simpl.
  - eexists. apply writes_ret.
  - destruct (Hf s x) as [o1 H1]. destruct (IH (g s x)) as [o2 H2].
    eexists. eapply writes_bind; eauto.
Qed.

Lemma writes_mapM {V A B} (f : A -> IO V B) (g : A -> B) l :
  (∀ x, ∃ o, writes (f x) (g x) o) →
  ∃ o, writes (mapM f l) (map g l) o.
Proof.
  intros Hf. induction l as [|x l [o2 H2]]; simpl.
  - eexists. apply writes_ret.
  - destruct (Hf x) as [o1 H1].
    eexists. eapply writes_bind; [exact H1|].
    eapply writes_bind; [exact H2|]. apply writes_ret.
Qed.

Lemma writes_filterM {V A} (p : A -> IO V bool) (q : A -> bool) l :
  (∀ x, ∃ o, writes (p x) (q x) o) →
  ∃ o, writes (filterM p l) (List.filter q l) o.
Proof.
  intros Hp. induction l as [|x l [o2 H2]]; simpl.
  - eexists. apply writes_ret.
  - destruct (Hp x) as [o1 H1].
    eexists. eapply writes_bind; [exact H1|].
    eapply writes_bind; [exact H2|]. apply writes_ret.
Qed.

Lemma writes_fst {V A} (m : IO V A) a o c : writes m a o → (m c).1 = a.
Proof. intros H. by rewrite H. Qed.

End ConsoleFacts.

(** ** The converters as functions of the descriptor alone *)

Section ConverterFacts.

Import ConsoleFacts.

Variable clean : option string -> string.

(** Assigning the converted entries one by one builds the image, under the
    conversion, of the object without its [__proto__] entry. *)
Lemma foldl_assign_lookup {A B} (f : A -> B) (l : list (string * A)) :
  NoDup l.*1 →
  ∀ (acc : gmap string B) k,
    foldl (fun acc kv => assign kv.1 (f kv.2) acc) acc l !! k
    = if decide (k = "__proto__") then acc !! k
      else match (list_to_map l : gmap string A) !! k with
           | Some a => Some (f a)
           | None => acc !! k
           end.
Proof.
  induction l as [|[k0 a0] l IH]; intros Hnd acc k; simpl.
  - rewrite lookup_empty. by destruct (decide (k = "__proto__")).
  - apply NoDup_cons in Hnd as [Hk0 Hnd]. rewrite (IH Hnd). unfold assign.
    destruct (decide (k = "__proto__")) as [->|Hk].
    + destruct (decide (k0 = "__proto__")) as [->|Hk0']; [done|].
      by rewrite lookup_insert_ne.
    + destruct (decide (k0 = k)) as [->|Hne].
      * rewrite lookup_insert_eq, decide_False by done.
        by rewrite (not_elem_of_list_to_map_1 l k Hk0), lookup_insert_eq.
      * rewrite (lookup_insert_ne (list_to_map l)) by done.
        destruct (decide (k0 = "__proto__")); [done|].
        by rewrite lookup_insert_ne.
Qed.

Lemma reduceEntries_fmap {A B} (f : A -> B) (o : gmap string A) :
  reduceEntries f o = f <$> delete "__proto__" o.
Proof.
  apply map_eq. intros k. unfold reduceEntries.
  rewrite foldl_assign_lookup by apply NoDup_fst_map_to_list.
  rewrite list_to_map_to_list, lookup_fmap, lookup_empty.
  destruct (decide (k = "__proto__")) as [->|Hk].
  - by rewrite lookup_delete_eq.
  - rewrite lookup_delete_ne by done. by destruct (o !! k).
Qed.

Lemma convertProperties_writes (props : gmap string Property) :
  ∃ out, writes (convertProperties clean props)
                (convertProperty clean <$> delete "__proto__" props) out.
Proof.
  unfold convertProperties.
  rewrite <- (reduceEntries_fmap (convertProperty clean)). unfold reduceEntries.
  apply writes_foldM. intros s x. eexists. unfold convertEntry.
  eapply writes_bind; [apply writes_log | apply writes_ret].
Qed.

(** An array field without an item type is converted to an array of
    strings. *)
Lemma convertProperty_array_default (prop : Property) :
  prop_type prop = Some "array" →
  prop_items prop ≫= items_type = None →
  cp_type (convertProperty clean prop) = ARRAY
  ∧ ci_type <$> cp_items (convertProperty clean prop) = Some STRING.
Proof.
  intros Hty Hit. unfold convertProperty.
  rewrite decide_True by done. simpl. split; [done|].
  unfold itemType. rewrite Hit.
  by destruct (prop_items prop ≫= items_properties).
Qed.

End ConverterFacts.

Module ToolConversionFacts.

Import ConsoleFacts ToolConversion.

Lemma convert_writes (tool : Tool) :
  ∃ out, writes (convertToolToFunctionDeclaration tool) (normalized tool) out.
Proof.
  unfold convertToolToFunctionDeclaration, normalized.
  destruct (inputSchema tool ≫= properties) as [props|].
  - destruct (convertProperties_writes cleanDescription props) as [o Ho].
    eexists. eapply writes_bind; [apply writes_log|].
    eapply writes_bind; [exact Ho|].
    eapply writes_bind; [apply writes_log | apply writes_ret].
  - eexists. eapply writes_bind; [apply writes_log | apply writes_ret].
Qed.

Lemma convert_fst (tool : Tool) c :
  (convertToolToFunctionDeclaration tool c).1 = normalized tool.
Proof. destruct (convert_writes tool) as [o Ho]. by rewrite Ho. Qed.

Lemma validTool_writes (tool : Tool) :
  ∃ out, writes (validTool tool) (bool_decide (Kept tool)) out.
Proof.
  unfold validTool.
  destruct (inputSchema tool ≫= properties) as [props|] eqn:Hp.
  - case_bool_decide as Hin.
    + eexists. rewrite bool_decide_eq_false_2.
      * eapply writes_bind; [apply writes_log | apply writes_ret].
      * unfold skipServers in Hin. intros (_ & Hfs & Hdk).
        apply elem_of_cons in Hin as [?|Hin]; [done|].
        by apply list_elem_of_singleton in Hin.
    + eexists. rewrite bool_decide_eq_true_2; [apply writes_ret|].
      unfold Kept. rewrite Hp. unfold skipServers in Hin.
      apply not_elem_of_cons in Hin as [Hfs Hin].
      apply not_elem_of_cons in Hin as [Hdk _].
      split; [by eexists | done].
  - eexists. rewrite bool_decide_eq_false_2.
    + eapply writes_bind; [apply writes_log | apply writes_ret].
    + unfold Kept. rewrite Hp. intros [[? ?] _]. done.
Qed.

Lemma convertLogged_writes (tool : Tool) :
  ∃ out, writes (convertLogged tool) (normalized tool) out.
Proof.
  destruct (convert_writes tool) as [o Ho]. unfold convertLogged.
  eexists. eapply writes_bind; [apply writes_log|].
  eapply writes_bind; [exact Ho|].
  eapply writes_bind; [apply writes_log | apply writes_ret].
Qed.

Lemma filter_bool_decide {A} (P : A -> Prop) `{∀ x, Decision (P x)} (l : list A) :
  List.filter (fun x => bool_decide (P x)) l = filter P l.
Proof.
  induction l as [|x l IH]; [done|]. simpl. rewrite IH.
  rewrite filter_cons. by case_bool_decide; case_decide.
Qed.

Lemma filterAndConvertTools_writes (tools : list Tool) :
  ∃ out, writes (filterAndConvertTools tools)
                (map normalized (filter Kept tools)) out.
Proof.
  unfold filterAndConvertTools.
  destruct (writes_filterM validTool (fun t => bool_decide (Kept t)) tools
              validTool_writes) as [o1 H1].
  rewrite filter_bool_decide in H1.
  destruct (writes_mapM convertLogged normalized (filter Kept tools)
              convertLogged_writes) as [o2 H2].
  eexists. eapply writes_bind; [exact H1|].
  eapply writes_bind; [apply writes_log | exact H2].
Qed.

End ToolConversionFacts.

Module AltairFacts.

Import ConsoleFacts Altair.

Lemma altair_convert_writes (tool : Tool) :
  ∃ out, writes (convertToolToFunctionDeclaration tool) (normalized tool) out.
Proof.
  unfold convertToolToFunctionDeclaration, normalized.
  destruct (inputSchema tool ≫= properties) as [props|].
  - destruct (convertProperties_writes orEmpty props) as [o Ho].
    eexists. eapply writes_bind; [apply writes_log|].
    eapply writes_bind; [exact Ho|].
    eapply writes_bind; [apply writes_log | apply writes_ret].
  - eexists. eapply writes_bind; [apply writes_log | apply writes_ret].
Qed.

End AltairFacts.

(** ** Schema normalization *)

Section Normalization.

Import ConsoleFacts.

Example readFiles_converted :
  (ToolConversion.convertToolToFunctionDeclaration Demo.readFiles []).1
  = {| fd_name := "read_files";
       fd_description := Some "Read several files";
       fd_parameters :=
         Some {| par_type := OBJECT;
                 par_properties :=
                   {[ "paths" := {| cp_type := ARRAY;
                                    cp_items := Some {| ci_type := STRING;
                                                        ci_properties := None;
                                                        ci_required := None |};
                                    cp_description := "files to read" |} ]};
                 par_required := [] |} |}.
Proof. by vm_compute. Qed.

Example cleanDescription_strips_quotes :
  ToolConversion.cleanDescription (Some "The user's `home` dir") = "The users home dir"
  ∧ ToolConversion.cleanDescription None = "".
Proof. by vm_compute. Qed.

Example skipped_servers_are_dropped :
  (ToolConversion.filterAndConvertTools
     [ {| name := "ls"; description := None; serverName := "filesystem";
          inputSchema := Some Demo.pathsSchema |};
       Demo.readFiles;
       {| name := "ping"; description := None; serverName := "github";
          inputSchema := None |} ] []).1
  = [ (ToolConversion.convertToolToFunctionDeclaration Demo.readFiles []).1 ].
Proof. by vm_compute. Qed.

(** C5: the claim fails on the code.  The descriptor [Demo.protoTool] has an
    array-typed field, named [__proto__], whose item type is omitted, and
    the declaration either copy of [convertToolToFunctionDeclaration]
    returns omits the field.  The converter builds the default item type
    STRING for it like for any other field, but the assignment that should
    store it in the object of converted properties replaces that object's
    prototype and adds no key. *)
Lemma proto_array_field_is_omitted :
  inputSchema Demo.protoTool = Some Demo.protoSchema
  ∧ properties Demo.protoSchema = Some {[ "__proto__" := Demo.pathsProperty ]}
  ∧ ({[ "__proto__" := Demo.pathsProperty ]} : gmap string Property) !! "__proto__"
    = Some Demo.pathsProperty
  ∧ prop_type Demo.pathsProperty = Some "array"
  ∧ prop_items Demo.pathsProperty ≫= items_type = None
  ∧ (fd_parameters (ToolConversion.convertToolToFunctionDeclaration Demo.protoTool []).1
       ≫= fun p => par_properties p !! "__proto__") = None
  ∧ (fd_parameters (Altair.convertToolToFunctionDeclaration Demo.protoTool []).1
       ≫= fun p => par_properties p !! "__proto__") = None.
Proof. by vm_compute. Qed.

(** X26: a field of type array, named anything but [__proto__], whose item
    type the provider left out (no [items] at all, or [items] without a
    [type]) is present in the declaration produced by
    [convertToolToFunctionDeclaration], in the utility module and in the
    Altair copy alike, as an array whose items have type string. *)
Theorem array_without_item_type_defaults_to_string
    (tool : Tool) (schema : InputSchema) (props : gmap string Property)
    (key : string) (prop : Property) (c : Console.t dump)
    (d : FunctionDeclaration) :
  inputSchema tool = Some schema →
  properties schema = Some props →
  props !! key = Some prop →
  key ≠ "__proto__" →
  prop_type prop = Some "array" →
  prop_items prop ≫= items_type = None →
  d = (ToolConversion.convertToolToFunctionDeclaration tool c).1
  ∨ d = (Altair.convertToolToFunctionDeclaration tool c).1 →
  ∃ cp items,
    (fd_parameters d ≫= fun p => par_properties p !! key) = Some cp
    ∧ cp_type cp = ARRAY
    ∧ cp_items cp = Some items
    ∧ ci_type items = STRING.
Proof.
  intros Hs Hp Hk Hkey Hty Hit Hd.
  assert (Hprops : inputSchema tool ≫= properties = Some props)
    by (by rewrite Hs).
  assert (∃ clean, fd_parameters d ≫= (fun p => par_properties p !! key)
                   = Some (convertProperty clean prop)) as [clean Hcp].
  { destruct Hd as [-> | ->].
    - exists ToolConversion.cleanDescription.
      rewrite ToolConversionFacts.convert_fst.
      unfold ToolConversion.normalized. rewrite Hprops. simpl.
      by rewrite lookup_fmap, lookup_delete_ne, Hk.
    - exists Altair.orEmpty.
      destruct (AltairFacts.altair_convert_writes tool) as [o Ho]. rewrite Ho.
      unfold Altair.normalized. rewrite Hprops. simpl.
      by rewrite lookup_fmap, lookup_delete_ne, Hk. }
  destruct (convertProperty_array_default clean prop Hty Hit) as [Ha Hi].
  destruct (cp_items (convertProperty clean prop)) as [items|] eqn:Hitems;
    [|done].
  exists (convertProperty clean prop), items.
  repeat split; try done. simpl in Hi. congruence.
Qed.

Lemma array_without_item_type_defaults_to_string_witness :
  ∃ cp items,
    (fd_parameters (Altair.convertToolToFunctionDeclaration Demo.readFiles []).1
       ≫= fun p => par_properties p !! "paths") = Some cp
    ∧ cp_type cp = ARRAY
    ∧ cp_items cp = Some items
    ∧ ci_type items = STRING.
Proof.
  apply (array_without_item_type_defaults_to_string
           Demo.readFiles Demo.pathsSchema {[ "paths" := Demo.pathsProperty ]} "paths"
           Demo.pathsProperty []).
  - reflexivity.
  - reflexivity.
  - reflexivity.
  - discriminate.
  - reflexivity.
  - reflexivity.
  - right. reflexivity.
Defined.

(** C6: the declaration [convertToolToFunctionDeclaration] returns does
    not depend on the state it runs in.  The console is the only ambient
    state the function touches; from any two consoles the same descriptor
    gives the same declaration, and the function only appends to the
    console an output that is itself fixed by the descriptor. *)
Theorem normalization_deterministic (tool : Tool) :
  (∀ c1 c2 : Console.t dump,
      (ToolConversion.convertToolToFunctionDeclaration tool c1).1
      = (ToolConversion.convertToolToFunctionDeclaration tool c2).1)
  ∧ ∃ out, ∀ c : Console.t dump,
      (ToolConversion.convertToolToFunctionDeclaration tool c).2 = (c ++ out)%list.
Proof.
  destruct (ToolConversionFacts.convert_writes tool) as [out Hout]. split.
  - intros c1 c2. by rewrite !Hout.
  - exists out. intros c. by rewrite Hout.
Qed.

(** C10: [filterAndConvertTools] returns the conversions, in the original
    order, of exactly the tools that have [inputSchema.properties] and
    whose [serverName] is neither filesystem nor docker-mcp. *)
Theorem filterAndConvertTools_keeps (tools : list Tool) (c c' : Console.t dump) :
  (ToolConversion.filterAndConvertTools tools c).1
  = map (fun tool => (ToolConversion.convertToolToFunctionDeclaration tool c').1)
        (filter ToolConversion.Kept tools).
Proof.
  destruct (ToolConversionFacts.filterAndConvertTools_writes tools) as [o Ho].
  rewrite Ho. simpl. apply map_ext. intros tool.
  by rewrite ToolConversionFacts.convert_fst.
Qed.

End Normalization.

(** ** The proxy's message handler *)

Module ServerFacts.

Import Server.

Lemma effectsOf_app {A} (m : M A) (s : State) r cs es :
  m s = (r, {| mcpClients := cs; trace := trace s ++ es |}) →
  effectsOf m s = es.
Proof. intros H. unfold effectsOf. rewrite H. simpl. apply drop_app_length. Qed.

Lemma equals_true o lit : o = Some lit → equals o lit = true.
Proof. intros ->. by apply bool_decide_eq_true_2. Qed.

Lemma equals_false o lit : o ≠ Some lit → equals o lit = false.
Proof. apply bool_decide_eq_false_2. Qed.

Ltac run_handler :=
  unfold incoming, callToolCase, connection, closed, tryCatch, bind, log,
    emit, getClients, throw, ret; simpl.

(** An invocation naming a server that is not a key of the registry. *)
Lemma incoming_unknown_server (W : World) ws request s :
  rtype request = Some "call_tool" →
  r_serverName request ≫= (fun k => map_get k (mcpClients s)) = None →
  incoming W ws (inr request) s
  = (Ok tt,
     {| mcpClients := mcpClients s;
        trace := trace s ++
          [ Print "[REQUEST] Received call_tool request";
            Print ("[TOOL_CALL] Calling tool " +:+ show (r_toolName request)
                   +:+ " on server " +:+ show (r_serverName request));
            Print "[ERROR] Request processing failed";
            Send ws (ErrorFrame None
                       ("MCP server " +:+ show (r_serverName request)
                        +:+ " not found")) ] |}).
Proof.
  intros Hty Hget. run_handler. rewrite Hty.
  rewrite (equals_false _ "list_tools"), (equals_false _ "client_log") by done.
  rewrite (equals_true _ "call_tool") by done. simpl.
  rewrite Hget. simpl. by rewrite <- !app_assoc.
Qed.

(** An invocation whose server is registered. *)
Lemma incoming_known_server (W : World) ws request s clientInfo :
  rtype request = Some "call_tool" →
  r_serverName request ≫= (fun k => map_get k (mcpClients s)) = Some clientInfo →
  ∃ before after frame,
    incoming W ws (inr request) s
    = (Ok tt,
       {| mcpClients := mcpClients s;
          trace := trace s ++
            [ Print before;
              Print ("[TOOL_CALL] Calling tool " +:+ show (r_toolName request)
                     +:+ " on server " +:+ show (r_serverName request));
              Print "[TOOL_DEBUG] Original tool schema:";
              Invoke (client clientInfo) (r_toolName request) (r_args request);
              Print after;
              Send ws frame ] |})
    ∧ frame
      = match callTool W (client clientInfo) (r_toolName request) (r_args request) with
        | inr toolResponse =>
            ToolResponse (r_requestId request) true
              match toolResponse with
              | JString text => text
              | _ => JSON_stringify W toolResponse
              end
        | inl e =>
            ErrorFrame (r_requestId request) ("Tool execution failed: " +:+ e)
        end.
Proof.
  intros Hty Hget. run_handler. rewrite Hty.
  rewrite (equals_false _ "list_tools"), (equals_false _ "client_log") by done.
  rewrite (equals_true _ "call_tool") by done. simpl.
  rewrite Hget. simpl.
  destruct (callTool W (client clientInfo) (r_toolName request) (r_args request))
    as [e|toolResponse]; simpl;
    do 3 eexists; (split; [by rewrite <- !app_assoc | done]).
Qed.

(** A request of no recognized kind. *)
Lemma incoming_unknown_type (W : World) ws request s :
  rtype request ≠ Some "list_tools" →
  rtype request ≠ Some "client_log" →
  rtype request ≠ Some "call_tool" →
  incoming W ws (inr request) s
  = (Ok tt,
     {| mcpClients := mcpClients s;
        trace := trace s ++
          [ Print ("[REQUEST] Received " +:+ show (rtype request) +:+ " request");
            Print ("[ERROR] Unknown request type: " +:+ show (rtype request));
            Print "[ERROR] Request processing failed";
            Send ws (ErrorFrame None
                       ("Unknown request type: " +:+ show (rtype request))) ] |}).
Proof.
  intros H1 H2 H3. run_handler.
  rewrite !equals_false by done. simpl. by rewrite <- !app_assoc.
Qed.

(** A catalog request. *)
Lemma incoming_list_tools (W : World) ws request s :
  rtype request = Some "list_tools" →
  incoming W ws (inr request) s
  = (Ok tt,
     {| mcpClients := mcpClients s;
        trace := trace s ++
          [ Print "[REQUEST] Received list_tools request";
            Print "[TOOLS_LIST] Sending tools list";
            Send ws (ToolsList (allTools (mcpClients s))) ] |}).
Proof.
  intros Hty. run_handler. rewrite Hty.
  rewrite (equals_true _ "list_tools") by done. simpl.
  by rewrite <- !app_assoc.
Qed.

End ServerFacts.

Module ServerClaims.

Import Server ServerFacts.

Example started_registry :
  mcpClients Demo.started
  = [("a", {| client := newClient "a" Demo.serverA; tools := [Demo.read_file] |})].
Proof. reflexivity. Qed.

(** C1: an invocation that names a server missing from the registry is
    answered with one error frame and reaches no backend, but the frame
    does not carry the correlation id that was submitted: here the request
    has [requestId] r1 and the frame has none. *)
Theorem unknown_server_error_drops_requestId (W : World) :
  r_requestId (Demo.request "call_tool" (Some "nope") (Some (JString "r1")))
  = Some (JString "r1")
  ∧ List.filter isSend
      (effectsOf
         (incoming W 1
            (inr (Demo.request "call_tool" (Some "nope") (Some (JString "r1")))))
         Demo.started)
    = [Send 1 (ErrorFrame None "MCP server nope not found")]
  ∧ List.filter isInvoke
      (effectsOf
         (incoming W 1
            (inr (Demo.request "call_tool" (Some "nope") (Some (JString "r1")))))
         Demo.started)
    = [].
Proof.
  split; [done|].
  erewrite effectsOf_app by (by apply incoming_unknown_server).
  by split.
Qed.



(** C7: a request whose type is none of [list_tools], [client_log] and
    [call_tool] is answered, on the connection it came from, with one
    error frame whose message names the unknown type; the handler does not
    close the connection. *)
Theorem unknown_request_type_reported (W : World) (ws : nat)
    (request : Request) (s : State) :
  rtype request ≠ Some "list_tools" →
  rtype request ≠ Some "client_log" →
  rtype request ≠ Some "call_tool" →
  List.filter isSend (effectsOf (incoming W ws (inr request)) s)
  = [Send ws (ErrorFrame None ("Unknown request type: " +:+ show (rtype request)))]
  ∧ List.filter isClose (effectsOf (incoming W ws (inr request)) s) = [].
Proof.
  intros H1 H2 H3.
  erewrite effectsOf_app by (by apply incoming_unknown_type).
  by split.
Qed.

Lemma unknown_request_type_reported_witness :
  List.filter isSend
    (effectsOf (incoming Demo.world 1 (inr (Demo.request "tools_list" None None)))
               Demo.started)
  = [Send 1 (ErrorFrame None "Unknown request type: tools_list")]
  ∧ List.filter isClose
      (effectsOf (incoming Demo.world 1 (inr (Demo.request "tools_list" None None)))
                 Demo.started)
    = [].
Proof.
  apply (unknown_request_type_reported Demo.world 1
           (Demo.request "tools_list" None None) Demo.started).
  - discriminate.
  - discriminate.
  - discriminate.
Defined.

End ServerClaims.

(** ** Startup: loading the configuration and filling the registry *)

Module StartupFacts.

Import Server.

Lemma initializeEntry_register (W : World) entry s :
  ∃ es, initializeEntry W entry s
        = (Ok tt, {| mcpClients := register W entry (mcpClients s);
                     trace := trace s ++ es |}).
Proof.
  unfold initializeEntry, initializeMCPClient, register, tryCatch, bind, emit,
    getClients, putClients, throw, ret. simpl.
  destruct (connect W (newClient entry.1 entry.2)) as [e|]; simpl.
  { eexists. by rewrite <- !app_assoc. }
  destruct (listTools W (newClient entry.1 entry.2)) as [e|[tools|]]; simpl;
    eexists; by rewrite <- !app_assoc.
Qed.

Lemma initializeEach_registry (W : World) servers :
  ∀ s, ∃ es, initializeEach W servers s
             = (Ok tt, {| mcpClients := foldl (fun m e => register W e m)
                                              (mcpClients s) servers;
                          trace := trace s ++ es |}).
Proof.
  unfold initializeEach.
  induction servers as [|entry servers IH]; intros s; simpl.
  - exists []. unfold ret. rewrite app_nil_r. by destruct s.
  - unfold bind. destruct (initializeEntry_register W entry s) as [es1 ->].
    destruct (IH {| mcpClients := register W entry (mcpClients s);
                    trace := trace s ++ es1 |}) as [es2 ->].
    simpl. eexists. by rewrite <- app_assoc.
Qed.

Lemma register_failed (W : World) n cfg m :
  connect W (newClient n cfg) ≠ None
  ∨ (∃ e, listTools W (newClient n cfg) = inl e) →
  register W (n, cfg) m = m.
Proof.
  unfold register. simpl. intros [Hc | [e He]].
  - by destruct (connect W (newClient n cfg)).
  - rewrite He. by destruct (connect W (newClient n cfg)).
Qed.

Lemma map_set_keys {V} k (v : V) m : ∀ k', k' ∈ (map_set k v m).*1 → k' = k ∨ k' ∈ m.*1.
Proof.
  induction m as [|[k0 v0] m IH]; intros k'; simpl.
  - rewrite list_elem_of_singleton. auto.
  - destruct (decide (k = k0)) as [->|Hne]; simpl; rewrite !elem_of_cons.
    + intros [->|?]; auto.
    + intros [->|H]; [auto|]. destruct (IH _ H); auto.
Qed.

Lemma register_keys (W : World) entry m k :
  k ∈ (register W entry m).*1 → k = entry.1 ∨ k ∈ m.*1.
Proof.
  unfold register.
  destruct (connect W _); [auto|].
  destruct (listTools W _) as [?|[?|]]; [auto| |]; apply map_set_keys.
Qed.

Lemma registry_keys (W : World) servers :
  ∀ m k, k ∈ (foldl (fun m e => register W e m) m servers).*1 →
         k ∈ m.*1 ∨ k ∈ servers.*1.
Proof.
  induction servers as [|entry servers IH]; intros m k; simpl; [auto|].
  intros H. rewrite elem_of_cons.
  destruct (IH _ _ H) as [H'|H']; [|auto].
  destruct (register_keys _ _ _ _ H'); auto.
Qed.

Lemma allTools_serverName m tool :
  tool ∈ allTools m → serverName tool ∈ m.*1.
Proof.
  unfold allTools. rewrite list_elem_of_In, in_flat_map.
  intros ([k info] & Hin & Htool). simpl in Htool.
  apply in_map_iff in Htool as (bt & <- & _). simpl.
  apply list_elem_of_In in Hin. by apply (list_elem_of_fmap_2 fst) in Hin.
Qed.

End StartupFacts.

Module StartupClaims.

Import Server StartupFacts.

Local Open Scope list_scope.

Example started_effects :
  trace Demo.started
  = [ Print "Loading MCP servers from config:";
      Print "Starting a MCP Server...";
      Print "a MCP Server connected";
      Print "a MCP Server tools loaded:";
      Print "Starting b MCP Server...";
      Print "Failed to initialize MCP client b:" ].
Proof. reflexivity. Qed.

(** C4: a provider whose backend cannot be launched ([connect] rejects) or
    whose discovery fails ([listTools] rejects) contributes no tool to the
    catalog, and the catalog is the one the remaining providers would have
    produced without it. *)
Theorem failed_provider_contributes_nothing (W : World)
    (before after : list (string * MCPServerConfig))
    (n : string) (cfg : MCPServerConfig) :
  connect W (newClient n cfg) ≠ None
  ∨ (∃ e, listTools W (newClient n cfg) = inl e) →
  n ∉ (before ++ after).*1 →
  (∀ tool,
      tool ∈ allTools (mcpClients (snd (initializeEach W (before ++ (n, cfg) :: after)
                                                        initialState))) →
      serverName tool ≠ n)
  ∧ allTools (mcpClients (snd (initializeEach W (before ++ (n, cfg) :: after)
                                              initialState)))
    = allTools (mcpClients (snd (initializeEach W (before ++ after) initialState))).
Proof.
  intros Hfail Hfresh.
  destruct (initializeEach_registry W (before ++ (n, cfg) :: after) initialState)
    as [es1 ->].
  destruct (initializeEach_registry W (before ++ after) initialState) as [es2 ->].
  simpl. rewrite !foldl_app. simpl. rewrite (register_failed W n cfg) by done.
  split; [|done].
  intros tool Hin <-. apply allTools_serverName in Hin.
  rewrite <- foldl_app in Hin.
  apply registry_keys in Hin as [Hin|Hin]; [|done].
  by apply elem_of_nil in Hin.
Qed.

Lemma failed_provider_contributes_nothing_witness :
  (∀ tool,
      tool ∈ allTools (mcpClients (snd (initializeEach Demo.world
                                          ([("a", Demo.serverA)] ++ ("b", Demo.serverB) :: [])
                                          initialState))) →
      serverName tool ≠ "b")
  ∧ allTools (mcpClients (snd (initializeEach Demo.world
                                 ([("a", Demo.serverA)] ++ ("b", Demo.serverB) :: [])
                                 initialState)))
    = allTools (mcpClients (snd (initializeEach Demo.world
                                   ([("a", Demo.serverA)] ++ []) initialState))).
Proof.
  apply (failed_provider_contributes_nothing Demo.world
           [("a", Demo.serverA)] [] "b" Demo.serverB).
  - left. discriminate.
  - vm_compute. intros H. apply elem_of_cons in H as [H|H]; [discriminate|].
    by apply elem_of_nil in H.
Defined.

Lemma loadConfig_returns (W : World) (s : State) :
  ∃ config es, loadConfig W s
               = (Ok config, {| mcpClients := mcpClients s; trace := trace s ++ es |}).
Proof.
  unfold loadConfig, tryCatch, bind, emit, throw, ret.
  destruct (readFile W (configPath W)) as [text|]; simpl.
  - destruct (JSON_parse W text) as [config|]; simpl.
    + exists config, []. rewrite app_nil_r. by destruct s.
    + by do 2 eexists.
  - by do 2 eexists.
Qed.

(** C8: when the configuration file cannot be read, or its text cannot be
    parsed, [loadConfig] does not throw but returns a configuration whose
    [mcpServers] is empty; [initializeClients] then returns normally with
    an empty registry, so the catalog is empty. *)
Theorem loadConfig_failure_gives_empty_config (W : World) (s : State) :
  readFile W (configPath W) = None
  ∨ (∃ text, readFile W (configPath W) = Some text ∧ JSON_parse W text = None) →
  fst (loadConfig W s) = Ok {| mcpServers := Some [] |}
  ∧ fst (initializeClients W initialState) = Ok tt
  ∧ allTools (mcpClients (snd (initializeClients W initialState))) = [].
Proof.
  intros Hbad.
  assert (Hload : ∀ s0, loadConfig W s0
            = (Ok {| mcpServers := Some [] |},
               {| mcpClients := mcpClients s0;
                  trace := trace s0 ++ [Print "Error loading config:"] |})).
  { intros s0. unfold loadConfig, tryCatch, bind, emit, throw, ret.
    destruct Hbad as [-> | (text & -> & ->)]; done. }
  split; [by rewrite Hload|].
  unfold initializeClients, bind. rewrite Hload. by simpl.
Qed.

Lemma loadConfig_failure_gives_empty_config_witness :
  fst (loadConfig Demo.unconfigured initialState) = Ok {| mcpServers := Some [] |}
  ∧ fst (initializeClients Demo.unconfigured initialState) = Ok tt
  ∧ allTools (mcpClients (snd (initializeClients Demo.unconfigured initialState))) = [].
Proof.
  apply (loadConfig_failure_gives_empty_config Demo.unconfigured initialState).
  left. reflexivity.
Defined.

End StartupClaims.

(** ** The registry after startup *)

Module RegistryFacts.

Import Server ServerFacts.

(** The message handler never lets an exception escape and never writes the
    registry. *)
Lemma incoming_registry (W : World) ws parsed s :
  ∃ es, incoming W ws parsed s
        = (Ok tt, {| mcpClients := mcpClients s; trace := trace s ++ es |}).
Proof.
  destruct parsed as [e|request].
  { run_handler. eexists. by rewrite <- !app_assoc. }
  destruct (decide (rtype request = Some "list_tools")) as [Hl|Hl].
  { eexists. by apply incoming_list_tools. }
  destruct (decide (rtype request = Some "client_log")) as [Hc|Hc].
  { run_handler. rewrite (equals_false _ "list_tools") by done.
    rewrite (equals_true _ "client_log") by done. simpl.
    eexists. by rewrite <- !app_assoc. }
  destruct (decide (rtype request = Some "call_tool")) as [Ht|Ht].
  - destruct (r_serverName request ≫= (fun k => map_get k (mcpClients s)))
      as [clientInfo|] eqn:Hget.
    + destruct (incoming_known_server W ws request s clientInfo Ht Hget)
        as (before & after & frame & -> & _). by eexists.
    + eexists. by apply incoming_unknown_server.
  - eexists. by apply incoming_unknown_type.
Qed.

Lemma step_registry (W : World) ev s :
  mcpClients (step W s ev) = mcpClients s.
Proof.
  unfold step. destruct ev as [ws|ws parsed|ws|n]; simpl; try done.
  by destruct (incoming_registry W ws parsed s) as [es ->].
Qed.

Lemma run_registry (W : World) evs :
  ∀ s, mcpClients (run W s evs) = mcpClients s.
Proof.
  unfold run. induction evs as [|ev evs IH]; intros s; simpl; [done|].
  by rewrite IH, step_registry.
Qed.

End RegistryFacts.

Module RegistryClaims.

Import Server ServerFacts RegistryFacts.

(** The claim C3 fails as stated: backend [a] was registered at startup, its
    process exits while a session is connected, and the catalog sent in
    answer to the next [list_tools] request still holds [a]'s tool. *)
Lemma crashed_backend_still_listed :
  "a" ∈ exited [Connection 1; BackendExit "a"]
  ∧ serverName (withServer "a" Demo.read_file) = "a"
  ∧ List.filter isSend
      (effectsOf
         (incoming Demo.world 1 (inr (Demo.request "list_tools" None None)))
         (run Demo.world Demo.started [Connection 1; BackendExit "a"]))
    = [Send 1 (ToolsList [withServer "a" Demo.read_file])].
Proof.
  split; [|split; reflexivity].
  simpl. apply list_elem_of_singleton. reflexivity.
Qed.

(** C3, amended: no event after startup changes the registry -- in
    particular not the exit of a backend's process, which no handler
    observes -- so a [list_tools] request is always answered with the
    catalog of the backends registered at startup, whether or not their
    processes are still running. *)
Theorem list_tools_reports_startup_registry (W : World) (s : State)
    (evs : list Event) (ws : nat) (request : Request) :
  rtype request = Some "list_tools" →
  mcpClients (run W s evs) = mcpClients s
  ∧ List.filter isSend (effectsOf (incoming W ws (inr request)) (run W s evs))
    = [Send ws (ToolsList (allTools (mcpClients s)))].
Proof.
  intros Hty. split; [apply run_registry|].
  erewrite effectsOf_app by (by apply incoming_list_tools).
  simpl. by rewrite run_registry.
Qed.

Lemma list_tools_reports_startup_registry_witness :
  mcpClients (run Demo.world Demo.started [BackendExit "a"; Closed 2])
  = mcpClients Demo.started
  ∧ List.filter isSend
      (effectsOf (incoming Demo.world 1 (inr (Demo.request "list_tools" None None)))
                 (run Demo.world Demo.started [BackendExit "a"; Closed 2]))
    = [Send 1 (ToolsList (allTools (mcpClients Demo.started)))].
Proof.
  apply (list_tools_reports_startup_registry Demo.world Demo.started
           [BackendExit "a"; Closed 2] 1 (Demo.request "list_tools" None None)).
  reflexivity.
Defined.

End RegistryClaims.

(** ** The browser client's table of pending calls *)

Module ClientFacts.

Import Server Client.

Local Open Scope nat_scope.

Lemma settled_resolve q v s p :
  q ≠ p → settled (resolve q v s) !! p = settled s !! p.
Proof.
  intros Hne. unfold resolve. destruct (settled s !! q); [done|].
  simpl. by rewrite lookup_insert_ne.
Qed.

Lemma messageHandlers_resolve q v s :
  messageHandlers (resolve q v s) = messageHandlers s.
Proof. unfold resolve. by destruct (settled s !! q). Qed.

Lemma toolsUpdateCallback_resolve q v s :
  toolsUpdateCallback (resolve q v s) = toolsUpdateCallback s.
Proof. unfold resolve. by destruct (settled s !! q). Qed.

Lemma nextPromise_resolve q v s :
  nextPromise (resolve q v s) = nextPromise s.
Proof. unfold resolve. by destruct (settled s !! q). Qed.

Lemma onmessage_error message s :
  mtype message = Some "error" →
  onmessage message s
  = print ("MCP server error: " +:+ default "undefined" (m_error message)) s.
Proof.
  intros Hty. unfold onmessage, equals. rewrite Hty.
  rewrite !bool_decide_eq_false_2 by done.
  by rewrite bool_decide_eq_true_2.
Qed.

(** A message that is not the response to [k] leaves the call pending. *)
Lemma onmessage_pending k p message s :
  respondsTo k message = false →
  Pending k p s → Pending k p (onmessage message s).
Proof.
  intros Hno Hpend. pose proof Hpend as (Hk & Hp & Hcb & Hothers).
  unfold onmessage.
  destruct (equals (mtype message) "tools_list").
  { destruct (toolsUpdateCallback s) as [q|] eqn:Hq; [|done].
    repeat split.
    - by rewrite messageHandlers_resolve.
    - rewrite settled_resolve; [done|]. by intros ->.
    - by rewrite toolsUpdateCallback_resolve, Hq.
    - intros k' Hk'. rewrite messageHandlers_resolve. by apply Hothers. }
  destruct (equals (mtype message) "tool_response") eqn:Hresp.
  { destruct (m_requestId message) as [k'|] eqn:Hid; simpl; [|done].
    destruct (messageHandlers s !! k') as [q|] eqn:Hq; [|done].
    assert (k' ≠ k) as Hne.
    { intros ->. unfold respondsTo in Hno. rewrite Hresp, Hid in Hno.
      by rewrite bool_decide_eq_true_2 in Hno. }
    assert (q ≠ p) as Hqp.
    { intros ->. by apply (Hothers k'). }
    repeat split; simpl.
    - rewrite messageHandlers_resolve. by rewrite lookup_delete_ne.
    - by rewrite settled_resolve.
    - by rewrite toolsUpdateCallback_resolve.
    - intros k'' Hk''. rewrite messageHandlers_resolve.
      destruct (decide (k' = k'')) as [<-|Hd].
      + by rewrite lookup_delete_eq.
      + rewrite lookup_delete_ne by done. by apply Hothers. }
  by destruct (equals (mtype message) "error").
Qed.

Lemma receive_pending k p messages :
  Forall (fun m => respondsTo k m = false) messages →
  ∀ s, Pending k p s → Pending k p (receive s messages).
Proof.
  unfold receive. induction 1 as [|m messages Hm _ IH]; intros s Hs; simpl.
  - done.
  - apply IH. by apply onmessage_pending.
Qed.

Lemma sendOrQueue_tables message s :
  messageHandlers (sendOrQueue message s) = messageHandlers s
  ∧ settled (sendOrQueue message s) = settled s
  ∧ toolsUpdateCallback (sendOrQueue message s) = toolsUpdateCallback s
  ∧ nextPromise (sendOrQueue message s) = nextPromise s.
Proof. unfold sendOrQueue. by destruct (connected s). Qed.

(** [callTool] leaves its call pending on the promise it returns. *)
Lemma callTool_pending k server tool args s :
  WellFormed s →
  Pending k (callTool k server tool args s).1 (callTool k server tool args s).2.
Proof.
  intros Hwf. destruct (Hwf (nextPromise s)) as (Hs & Hcb & Hh); [done|].
  unfold callTool, Pending. simpl.
  destruct (sendOrQueue_tables
              (CallTool k server tool args)
              (set_messageHandlers (insert k (nextPromise s))
                 (set_nextPromise (S (nextPromise s)) s))) as (-> & -> & -> & _).
  simpl. repeat split; try done.
  - by rewrite lookup_insert_eq.
  - intros k' Hk'. by rewrite lookup_insert_ne.
Qed.

Lemma new_wellFormed : WellFormed new.
Proof.
  intros p _. by repeat split.
Qed.

Lemma callTool_wellFormed k server tool args s :
  WellFormed s → WellFormed (callTool k server tool args s).2.
Proof.
  intros Hwf p Hp. unfold callTool in *. simpl in *.
  destruct (sendOrQueue_tables
              (CallTool k server tool args)
              (set_messageHandlers (insert k (nextPromise s))
                 (set_nextPromise (S (nextPromise s)) s))) as (Hh & Hs & Hc & Hn).
  unfold Unused. rewrite Hh, Hs, Hc. rewrite Hn in Hp. simpl in *.
  destruct (Hwf p) as (Hs' & Hcb & Hh'); [lia|].
  repeat split; try done.
  intros k'. destruct (decide (k = k')) as [<-|Hne].
  - rewrite lookup_insert_eq. intros [= Heq]. lia.
  - by rewrite lookup_insert_ne.
Qed.

Lemma nextPromise_onmessage message s :
  nextPromise (onmessage message s) = nextPromise s.
Proof.
  unfold onmessage. repeat case_match; simpl; by rewrite ?nextPromise_resolve.
Qed.

Lemma onmessage_wellFormed message s :
  WellFormed s → WellFormed (onmessage message s).
Proof.
  intros Hwf p Hp. rewrite nextPromise_onmessage in Hp.
  assert (Hres : ∀ q v, q < nextPromise s → Unused p (resolve q v s)).
  { intros q v Hq. destruct (Hwf p Hp) as (Hs & Hcb & Hh). unfold Unused.
    rewrite messageHandlers_resolve, toolsUpdateCallback_resolve.
    by rewrite settled_resolve by lia. }
  assert (Hlt : ∀ q, (toolsUpdateCallback s = Some q
                      ∨ ∃ k, messageHandlers s !! k = Some q) →
                     q < nextPromise s).
  { intros q Hq. destruct (decide (q < nextPromise s)) as [|Hge]; [done|].
    destruct (Hwf q) as (_ & Hcb & Hh); [lia|].
    destruct Hq as [Hq|[k Hq]]; [done|]. by destruct (Hh k). }
  unfold onmessage.
  destruct (equals (mtype message) "tools_list").
  { destruct (toolsUpdateCallback s) as [q|] eqn:Hq; [|by apply Hwf].
    apply Hres, Hlt. by left. }
  destruct (equals (mtype message) "tool_response").
  { destruct (m_requestId message) as [k|] eqn:Hid; simpl; [|by apply Hwf].
    destruct (messageHandlers s !! k) as [q|] eqn:Hq; [|by apply Hwf].
    destruct (Hres q (Response (m_response message))) as (Hs' & Hcb & Hh').
    { apply Hlt. right. by exists k. }
    repeat split; simpl; try done.
    intros k'. destruct (decide (k = k')) as [<-|Hne].
    - by rewrite lookup_delete_eq.
    - rewrite lookup_delete_ne by done. apply Hh'. }
  destruct (equals (mtype message) "error"); by apply Hwf.
Qed.

End ClientFacts.

Module ClientClaims.

Import Server Client ClientFacts.

Example error_then_traffic :
  let s := receive (callTool "k3x9" "a" "read_file" JNull new).2
                   [Demo.toolFailed; Demo.catalogPush; Demo.otherResponse] in
  messageHandlers s = {[ "k3x9" := 0 ]} ∧ settled s = ∅.
Proof. by vm_compute. Qed.

(** C9: an [error] message changes neither the table of pending calls nor
    any promise.  So once [callTool] has registered a call under a
    correlation id and the proxy has answered it with an error frame, the
    call's entry stays in the table and its promise stays unsettled, for as
    long as no [tool_response] frame with that id arrives. *)
Theorem error_frame_leaves_call_pending (s : State) (k server tool : string)
    (args : json) (error : ServerMessage) (later : list ServerMessage) :
  WellFormed s →
  mtype error = Some "error" →
  Forall (fun m => respondsTo k m = false) later →
  (∀ s', messageHandlers (onmessage error s') = messageHandlers s'
         ∧ settled (onmessage error s') = settled s')
  ∧ messageHandlers
      (receive (onmessage error (callTool k server tool args s).2) later) !! k
    = Some (callTool k server tool args s).1
  ∧ settled
      (receive (onmessage error (callTool k server tool args s).2) later)
      !! (callTool k server tool args s).1
    = None.
Proof.
  intros Hwf Hty Hlater. split.
  { intros s'. by rewrite onmessage_error. }
  pose proof (callTool_pending k server tool args s Hwf) as Hpend.
  assert (Pending k (callTool k server tool args s).1
                  (onmessage error (callTool k server tool args s).2)) as Hafter.
  { rewrite onmessage_error by done. exact Hpend. }
  destruct (receive_pending k _ later Hlater _ Hafter) as (Hk & Hp & _).
  by split.
Qed.

Lemma error_frame_leaves_call_pending_witness :
  (∀ s', messageHandlers (onmessage Demo.toolFailed s') = messageHandlers s'
         ∧ settled (onmessage Demo.toolFailed s') = settled s')
  ∧ messageHandlers
      (receive (onmessage Demo.toolFailed (callTool "k3x9" "a" "read_file" JNull new).2)
               [Demo.catalogPush; Demo.otherResponse]) !! "k3x9"
    = Some (callTool "k3x9" "a" "read_file" JNull new).1
  ∧ settled
      (receive (onmessage Demo.toolFailed (callTool "k3x9" "a" "read_file" JNull new).2)
               [Demo.catalogPush; Demo.otherResponse])
      !! (callTool "k3x9" "a" "read_file" JNull new).1
    = None.
Proof.
  apply (error_frame_leaves_call_pending new "k3x9" "a" "read_file" JNull
           Demo.toolFailed [Demo.catalogPush; Demo.otherResponse]).
  - exact new_wellFormed.
  - reflexivity.
  - repeat constructor.
Defined.

End ClientClaims.

(** * Further properties of the proxy *)

Module ProxyFacts.

Import Server ServerFacts Protocol.

Local Open Scope list_scope.

Lemma incoming_malformed (W : World) ws e s :
  incoming W ws (inl e) s
  = (Ok tt,
     {| mcpClients := mcpClients s;
        trace := trace s ++
          [ Print "[ERROR] Request processing failed";
            Send ws (ErrorFrame None e) ] |}).
Proof. run_handler. by rewrite <- !app_assoc. Qed.

Lemma incoming_client_log (W : World) ws request s :
  rtype request = Some "client_log" →
  incoming W ws (inr request) s
  = (Ok tt,
     {| mcpClients := mcpClients s;
        trace := trace s ++
          [ Print "[REQUEST] Received client_log request";
            Print ("[CLIENT] " +:+ show (r_message request)) ] |}).
Proof.
  intros Hty. run_handler. rewrite Hty.
  rewrite (equals_false _ "list_tools") by done.
  rewrite (equals_true _ "client_log") by done. simpl.
  by rewrite <- !app_assoc.
Qed.

(** The four kinds of request, told apart. *)
Lemma request_kind (request : Request) :
  rtype request = Some "list_tools"
  ∨ rtype request = Some "client_log"
  ∨ rtype request = Some "call_tool"
  ∨ (rtype request ≠ Some "list_tools"
     ∧ rtype request ≠ Some "client_log"
     ∧ rtype request ≠ Some "call_tool").
Proof.
  destruct (decide (rtype request = Some "list_tools")); [by left|].
  destruct (decide (rtype request = Some "client_log")); [by right; left|].
  destruct (decide (rtype request = Some "call_tool")); [by right; right; left|].
  by right; right; right.
Qed.

(** What handling one message adds to the trace: the frames it writes, all
    on the socket the message came from, and the backend calls it makes. *)
Lemma incoming_effects (W : World) ws parsed s :
  ∃ es fs,
    incoming W ws parsed s
    = (Ok tt, {| mcpClients := mcpClients s; trace := trace s ++ es |})
    ∧ frames es = map (pair ws) fs
    ∧ length fs = (if isClientLog parsed then 0 else 1)
    ∧ List.filter isClose es = []
    ∧ ∀ tools, ToolsList tools ∈ fs → tools = allTools (mcpClients s).
Proof.
  destruct parsed as [e|request].
  { eexists. exists [ErrorFrame None e]. split; [apply incoming_malformed|].
    repeat split; try done. by intros tools [=]%list_elem_of_singleton. }
  destruct (request_kind request) as [H|[H|[H|(H1 & H2 & H3)]]].
  - eexists. exists [ToolsList (allTools (mcpClients s))].
    split; [by apply incoming_list_tools|].
    simpl. rewrite equals_false by (rewrite H; done).
    repeat split; try done. by intros tools [=]%list_elem_of_singleton.
  - eexists. exists []. split; [by apply incoming_client_log|].
    simpl. rewrite equals_true by done.
    repeat split; try done. by intros tools ?%elem_of_nil.
  - destruct (r_serverName request ≫= (fun k => map_get k (mcpClients s)))
      as [clientInfo|] eqn:Hget.
    + destruct (incoming_known_server W ws request s clientInfo H Hget)
        as (before & after & frame & Hrun & Hframe).
      eexists. exists [frame]. split; [exact Hrun|].
      simpl. rewrite equals_false by (rewrite H; done).
      repeat split; try done. intros tools Hin%list_elem_of_singleton.
      rewrite <- Hin in Hframe. by destruct (callTool W _ _ _).
    + eexists. exists [ErrorFrame None ("MCP server " +:+ show (r_serverName request)
                                        +:+ " not found")].
      split; [by apply incoming_unknown_server|].
      simpl. rewrite equals_false by (rewrite H; done).
      repeat split; try done. by intros tools [=]%list_elem_of_singleton.
  - eexists. exists [ErrorFrame None ("Unknown request type: " +:+ show (rtype request))].
    split; [by apply incoming_unknown_type|].
    simpl. rewrite equals_false by done.
    repeat split; try done. by intros tools [=]%list_elem_of_singleton.
Qed.

Lemma connection_effects ws s :
  connection ws s
  = (Ok tt,
     {| mcpClients := mcpClients s;
        trace := trace s ++
          [ Print "[CONNECTION] New client connected";
            Print "[TOOLS_INIT] Sending initial tools list";
            Send ws (ToolsList (allTools (mcpClients s))) ] |}).
Proof. run_handler. by rewrite <- !app_assoc. Qed.

Lemma frames_app es1 es2 : frames (es1 ++ es2) = frames es1 ++ frames es2.
Proof. unfold frames. by rewrite flat_map_app. Qed.

(** One event: the state it leads to and the catalog frames it writes. *)
Lemma step_effects (W : World) ev s :
  ∃ es, step W s ev = {| mcpClients := mcpClients s; trace := trace s ++ es |}
        ∧ ∀ ws tools, (ws, ToolsList tools) ∈ frames es →
                      tools = allTools (mcpClients s).
Proof.
  unfold step. destruct ev as [ws|ws parsed|ws|n]; cbn [handle].
  - rewrite connection_effects. eexists. split; [done|].
    simpl. by intros ws' tools [=]%list_elem_of_singleton.
  - destruct (incoming_effects W ws parsed s) as (es & fs & -> & Hfs & _ & _ & Hcat).
    exists es. split; [done|]. intros ws' tools. rewrite Hfs.
    intros (f & [= _ <-] & Hin)%list_elem_of_fmap. by apply Hcat.
  - exists [Print "[CONNECTION] Client disconnected"]. split; [done|].
    simpl. by intros ws' tools ?%elem_of_nil.
  - exists []. rewrite app_nil_r. split; [by destruct s|].
    simpl. by intros ws' tools ?%elem_of_nil.
Qed.

Lemma run_effects (W : World) evs :
  ∀ s, ∃ es, run W s evs = {| mcpClients := mcpClients s; trace := trace s ++ es |}
             ∧ ∀ ws tools, (ws, ToolsList tools) ∈ frames es →
                           tools = allTools (mcpClients s).
Proof.
  unfold run. induction evs as [|ev evs IH]; intros s; simpl.
  - exists []. rewrite app_nil_r. split; [by destruct s|].
    simpl. by intros ws tools ?%elem_of_nil.
  - destruct (step_effects W ev s) as (es1 & -> & H1).
    destruct (IH {| mcpClients := mcpClients s; trace := trace s ++ es1 |})
      as (es2 & -> & H2).
    simpl. exists (es1 ++ es2). split; [by rewrite app_assoc|].
    intros ws tools. rewrite frames_app, elem_of_app.
    intros [Hin|Hin]; [by apply (H1 ws) | by apply (H2 ws)].
Qed.

(** [Map.prototype.get] after [Map.prototype.set]. *)
Lemma map_get_set_eq {V} k (v : V) m : map_get k (map_set k v m) = Some v.
Proof.
  induction m as [|[k0 v0] m IH]; simpl.
  - by rewrite decide_True.
  - destruct (decide (k = k0)) as [->|Hne]; simpl.
    + by rewrite decide_True.
    + by rewrite decide_False.
Qed.

Lemma map_get_set_ne {V} k k' (v : V) m :
  k' ≠ k → map_get k' (map_set k v m) = map_get k' m.
Proof.
  intros Hne. induction m as [|[k0 v0] m IH]; simpl.
  - by rewrite decide_False.
  - destruct (decide (k = k0)) as [->|Hk]; simpl.
    + by rewrite !decide_False.
    + destruct (decide (k' = k0)); [done|apply IH].
Qed.

Lemma map_set_fresh {V} k (v : V) m :
  k ∉ m.*1 → map_set k v m = m ++ [(k, v)].
Proof.
  induction m as [|[k0 v0] m IH]; simpl; [done|].
  intros [Hne Hnin]%not_elem_of_cons.
  rewrite decide_False by done. by rewrite IH.
Qed.

Lemma map_set_NoDup {V} k (v : V) m : NoDup m.*1 → NoDup (map_set k v m).*1.
Proof.
  induction m as [|[k0 v0] m IH]; simpl.
  - intros _. apply NoDup_singleton.
  - intros [Hk0 Hnd]%NoDup_cons.
    destruct (decide (k = k0)) as [->|Hne]; simpl.
    + by apply NoDup_cons.
    + apply NoDup_cons. split; [|by apply IH].
      intros Hin. apply StartupFacts.map_set_keys in Hin as [?|?]; done.
Qed.

Lemma map_get_elem {V} k (v : V) m :
  NoDup m.*1 → (k, v) ∈ m → map_get k m = Some v.
Proof.
  induction m as [|[k0 v0] m IH]; simpl.
  - by intros _ ?%elem_of_nil.
  - intros [Hk0 Hnd]%NoDup_cons [[= -> ->]|Hin]%elem_of_cons.
    + by rewrite decide_True.
    + rewrite decide_False; [by apply IH|].
      intros ->. apply Hk0. by apply (list_elem_of_fmap_2 fst) in Hin.
Qed.

(** The registry the startup loop builds from distinct names. *)
Lemma startup_registry_from (W : World) servers :
  ∀ m, NoDup (m.*1 ++ servers.*1) →
       foldl (fun m e => register W e m) m servers
       = m ++ map (registered W) (List.filter (starts W) servers).
Proof.
  induction servers as [|e servers IH]; intros m Hnd; simpl.
  - by rewrite app_nil_r.
  - assert (He : e.1 ∉ m.*1).
    { apply NoDup_app in Hnd as (_ & Hdisj & _). intros Hin.
      apply (Hdisj _ Hin). by left. }
    assert (Hrest : ∀ m' : list (string * ClientInfo),
                      m'.*1 = m.*1 ∨ m'.*1 = m.*1 ++ [e.1] →
                          NoDup (m'.*1 ++ servers.*1)).
    { intros m' [-> | ->].
      - apply NoDup_app in Hnd as (Hm & Hdisj & [_ Hs]%NoDup_cons).
        apply NoDup_app. repeat split; try done.
        intros x Hx Hxs. apply (Hdisj x Hx). by right.
      - by rewrite <- app_assoc. }
    destruct (starts W e) eqn:Hst.
    + assert (register W e m = m ++ [registered W e]) as ->.
      { unfold register, registered, starts in *.
        destruct (connect W (newClient e.1 e.2)); [done|].
        destruct (listTools W (newClient e.1 e.2)) as [?|[ts|]]; [done| |];
          by rewrite map_set_fresh. }
      rewrite IH.
      * by rewrite <- app_assoc.
      * apply Hrest. right. by rewrite fmap_app.
    + assert (register W e m = m) as ->.
      { unfold register, starts in *.
        destruct (connect W (newClient e.1 e.2)); [done|].
        by destruct (listTools W (newClient e.1 e.2)) as [?|[ts|]]. }
      apply IH, Hrest. by left.
Qed.

End ProxyFacts.

Module ProxyProperties.

Import Server ServerFacts Protocol ProxyFacts.

Local Open Scope list_scope.

Example twins_registry :
  (mcpClients Scenario.twinsStarted).*1 = ["a"; "c"].
Proof. reflexivity. Qed.


(** X2: a message that is not valid JSON is answered with one error frame
    carrying the parser's message; no backend is called. *)
Theorem malformed_message_reported (W : World) (ws : nat) (e : string) (s : State) :
  frames (effectsOf (incoming W ws (inl e)) s) = [(ws, ErrorFrame None e)]
  ∧ invocations (effectsOf (incoming W ws (inl e)) s) = [].
Proof. by erewrite effectsOf_app by apply incoming_malformed. Qed.

(** X3: when a provider connects and lists its tools, [initializeMCPClient]
    returns the client with those tools and stores it under the provider's
    name: a lookup of that name finds it, every other name is as before, and
    the registry's names stay distinct. *)
Theorem initializeMCPClient_registers (W : World) (name : string)
    (config : MCPServerConfig) (s : State) (listed : list BackendTool) :
  connect W (newClient name config) = None →
  listTools W (newClient name config) = inr (Some listed) →
  fst (initializeMCPClient W name config s)
  = Ok (Some {| client := newClient name config; tools := listed |})
  ∧ map_get name (mcpClients (snd (initializeMCPClient W name config s)))
    = Some {| client := newClient name config; tools := listed |}
  ∧ (∀ k, k ≠ name →
          map_get k (mcpClients (snd (initializeMCPClient W name config s)))
          = map_get k (mcpClients s))
  ∧ (NoDup (mcpClients s).*1 →
     NoDup (mcpClients (snd (initializeMCPClient W name config s))).*1).
Proof.
  intros Hc Hl.
  unfold initializeMCPClient, tryCatch, bind, emit, getClients, putClients,
    throw, ret. simpl. rewrite Hc. simpl. rewrite Hl. simpl.
  repeat split.
  - apply map_get_set_eq.
  - intros k Hk. by apply map_get_set_ne.
  - apply map_set_NoDup.
Qed.

Lemma initializeMCPClient_registers_witness :
  fst (initializeMCPClient Scenario.twins "c" Scenario.serverC Demo.started)
  = Ok (Some {| client := newClient "c" Scenario.serverC;
                tools := [Demo.read_file; Scenario.write_file] |})
  ∧ map_get "c" (mcpClients (snd (initializeMCPClient Scenario.twins "c"
                                    Scenario.serverC Demo.started)))
    = Some {| client := newClient "c" Scenario.serverC;
              tools := [Demo.read_file; Scenario.write_file] |}
  ∧ (∀ k, k ≠ "c" →
          map_get k (mcpClients (snd (initializeMCPClient Scenario.twins "c"
                                        Scenario.serverC Demo.started)))
          = map_get k (mcpClients Demo.started))
  ∧ (NoDup (mcpClients Demo.started).*1 →
     NoDup (mcpClients (snd (initializeMCPClient Scenario.twins "c"
                               Scenario.serverC Demo.started))).*1).
Proof.
  apply (initializeMCPClient_registers Scenario.twins "c" Scenario.serverC
           Demo.started [Demo.read_file; Scenario.write_file]).
  - reflexivity.
  - reflexivity.
Defined.

(** X4: started from an empty registry on providers with distinct names,
    the startup loop leaves in the registry, in configuration order, exactly
    the providers whose connection and discovery succeeded, each with the
    tools it listed. *)
Theorem startup_registry (W : World) (servers : list (string * MCPServerConfig)) :
  NoDup servers.*1 →
  fst (initializeEach W servers initialState) = Ok tt
  ∧ mcpClients (snd (initializeEach W servers initialState))
    = map (registered W) (List.filter (starts W) servers).
Proof.
  intros Hnd.
  destruct (StartupFacts.initializeEach_registry W servers initialState)
    as [es ->]. split; [done|]. simpl.
  by rewrite startup_registry_from.
Qed.

Lemma startup_registry_witness :
  fst (initializeEach Scenario.twins
         [("a", Demo.serverA); ("b", Demo.serverB); ("c", Scenario.serverC)]
         initialState) = Ok tt
  ∧ mcpClients (snd (initializeEach Scenario.twins
                       [("a", Demo.serverA); ("b", Demo.serverB);
                        ("c", Scenario.serverC)] initialState))
    = map (registered Scenario.twins)
          (List.filter (starts Scenario.twins)
             [("a", Demo.serverA); ("b", Demo.serverB); ("c", Scenario.serverC)]).
Proof.
  apply (startup_registry Scenario.twins
           [("a", Demo.serverA); ("b", Demo.serverB); ("c", Scenario.serverC)]).
  apply (bool_decide_unpack _). by vm_compute.
Defined.

Lemma allTools_elem m entry :
  entry ∈ allTools m →
  ∃ info bt, (serverName entry, info) ∈ m ∧ bt ∈ tools info
             ∧ entry = withServer (serverName entry) bt.
Proof.
  unfold allTools. rewrite list_elem_of_In, in_flat_map.
  intros ([k info] & Hin & Htool). simpl in Htool.
  apply in_map_iff in Htool as (bt & <- & Hbt). simpl.
  exists info, bt. by rewrite !list_elem_of_In.
Qed.

(** X5: every entry of the catalog can be called.  A [call_tool] request
    carrying an entry's [serverName] and [name] makes exactly one backend
    call, with that tool name and the request's arguments, on the client
    registered under that server -- a backend that lists the tool -- and on no
    other, even when other servers offer a tool of the same name. *)
Theorem advertised_tool_reaches_its_backend (W : World) (ws : nat) (s : State)
    (entry : Tool) (request : Request) :
  NoDup (mcpClients s).*1 →
  entry ∈ allTools (mcpClients s) →
  rtype request = Some "call_tool" →
  r_serverName request = Some (serverName entry) →
  r_toolName request = Some (name entry) →
  ∃ info bt,
    map_get (serverName entry) (mcpClients s) = Some info
    ∧ bt ∈ tools info
    ∧ bt_name bt = name entry
    ∧ invocations (effectsOf (incoming W ws (inr request)) s)
      = [(client info, Some (name entry), r_args request)].
Proof.
  intros Hnd Hin Hty Hsrv Htool.
  apply allTools_elem in Hin as (info & bt & Hreg & Hbt & Hentry).
  pose proof (map_get_elem _ _ _ Hnd Hreg) as Hget.
  exists info, bt. repeat split; try done.
  { by rewrite Hentry. }
  assert (Hlook : r_serverName request ≫= (fun k => map_get k (mcpClients s))
                  = Some info) by (by rewrite Hsrv).
  destruct (incoming_known_server W ws request s info Hty Hlook)
    as (before & after & frame & Hrun & _).
  erewrite effectsOf_app by exact Hrun. simpl. by rewrite Htool.
Qed.

Lemma advertised_tool_reaches_its_backend_witness :
  ∃ info bt,
    map_get (serverName (withServer "c" Demo.read_file))
            (mcpClients Scenario.twinsStarted) = Some info
    ∧ bt ∈ tools info
    ∧ bt_name bt = name (withServer "c" Demo.read_file)
    ∧ invocations
        (effectsOf
           (incoming Scenario.twins 4
              (inr (Demo.request "call_tool" (Some "c") (Some (JString "r7")))))
           Scenario.twinsStarted)
      = [(client info, Some (name (withServer "c" Demo.read_file)),
          r_args (Demo.request "call_tool" (Some "c") (Some (JString "r7"))))].
Proof.
  apply (advertised_tool_reaches_its_backend Scenario.twins 4
           Scenario.twinsStarted (withServer "c" Demo.read_file)
           (Demo.request "call_tool" (Some "c") (Some (JString "r7")))).
  - apply (bool_decide_unpack _). by vm_compute.
  - apply list_elem_of_lookup. exists 1. reflexivity.
  - reflexivity.
  - reflexivity.
  - reflexivity.
Defined.

(** X6: a configuration file that is read and parsed but has no
    [mcpServers] member makes [initializeClients] throw, with the registry
    untouched: the guard in [loadConfig] covers only reading and parsing. *)
Theorem startup_throws_without_mcpServers (W : World) (s : State)
    (text : string) (config : Config) :
  readFile W (configPath W) = Some text →
  JSON_parse W text = Some config →
  mcpServers config = None →
  (∃ e, fst (initializeClients W s) = Throw e)
  ∧ mcpClients (snd (initializeClients W s)) = mcpClients s.
Proof.
  intros Hread Hparse Hnone.
  unfold initializeClients, loadConfig, tryCatch, bind, throw, ret.
  rewrite Hread, Hparse. simpl. rewrite Hnone. split; [by eexists|done].
Qed.

Lemma startup_throws_without_mcpServers_witness :
  (∃ e, fst (initializeClients Scenario.misconfigured initialState) = Throw e)
  ∧ mcpClients (snd (initializeClients Scenario.misconfigured initialState))
    = mcpClients initialState.
Proof.
  apply (startup_throws_without_mcpServers Scenario.misconfigured initialState
           "{...}" {| mcpServers := None |}).
  - reflexivity.
  - reflexivity.
  - reflexivity.
Defined.

(** X7: in any run of the proxy from a state [s] -- connections, messages
    of any kind, disconnections, backend exits -- every [tools_list] frame,
    whether pushed on connection or sent in answer to [list_tools], carries
    the catalog of the registry of [s]. *)
Theorem catalog_frames_show_the_registry (W : World) (s : State)
    (evs : list Event) (ws : nat) (listed : list Tool) :
  (ws, ToolsList listed)
    ∈ frames (drop (length (trace s)) (trace (run W s evs))) →
  listed = allTools (mcpClients s).
Proof.
  destruct (run_effects W evs s) as (es & -> & Hcat). simpl.
  rewrite drop_app_length. apply Hcat.
Qed.

Lemma catalog_frames_show_the_registry_witness :
  [withServer "a" Demo.read_file] = allTools (mcpClients Demo.started).
Proof.
  apply (catalog_frames_show_the_registry Demo.world Demo.started
           [Connection 5; BackendExit "a";
            Message 5 (inr (Demo.request "list_tools" None None))]
           5 [withServer "a" Demo.read_file]).
  apply list_elem_of_lookup. exists 1. reflexivity.
Defined.

End ProxyProperties.

(** * Further properties of the browser client *)

Module ClientMoreFacts.

Import Server Client ClientFacts.

Local Open Scope list_scope.

Lemma onmessage_response message s k p :
  mtype message = Some "tool_response" →
  m_requestId message = Some k →
  messageHandlers s !! k = Some p →
  onmessage message s
  = set_messageHandlers (delete k) (resolve p (Response (m_response message)) s).
Proof.
  intros Hty Hid Hk. unfold onmessage.
  rewrite (ServerFacts.equals_false _ "tools_list") by (rewrite Hty; done).
  rewrite (ServerFacts.equals_true _ "tool_response") by done.
  rewrite Hid. simpl. by rewrite Hk.
Qed.

Lemma onmessage_tools_list message s :
  mtype message = Some "tools_list" →
  onmessage message s
  = match toolsUpdateCallback s with
    | Some callback => resolve callback (ClientInfo (m_tools message)) s
    | None => s
    end.
Proof.
  intros Hty. unfold onmessage. by rewrite (ServerFacts.equals_true _ "tools_list").
Qed.

Lemma settled_resolve_eq p v s :
  settled s !! p = None → settled (resolve p v s) !! p = Some v.
Proof. intros H. unfold resolve. rewrite H. simpl. apply lookup_insert_eq. Qed.

(** Resolving never changes a promise that is already settled. *)
Lemma settled_resolve_keeps q w s p v :
  settled s !! p = Some v → settled (resolve q w s) !! p = Some v.
Proof.
  intros H. unfold resolve. destruct (settled s !! q) eqn:Hq; [done|].
  simpl. rewrite lookup_insert_ne; [done|]. intros ->. congruence.
Qed.

Lemma onmessage_settled_keeps message s p v :
  settled s !! p = Some v → settled (onmessage message s) !! p = Some v.
Proof.
  intros H. unfold onmessage.
  repeat case_match; simpl; try done; by apply settled_resolve_keeps.
Qed.

(** A promise no table refers to stays that way, and unsettled. *)
Lemma receive_settled_keeps messages :
  ∀ s p v, settled s !! p = Some v →
           settled (foldl (fun st m => onmessage m st) s messages) !! p = Some v.
Proof.
  induction messages as [|m messages IH]; intros s p v H; simpl; [done|].
  apply IH. by apply onmessage_settled_keeps.
Qed.

Lemma onmessage_unused message s p :
  Unused p s → Unused p (onmessage message s).
Proof.
  intros Hun. pose proof Hun as (Hs & Hcb & Hh). unfold onmessage.
  destruct (equals (mtype message) "tools_list").
  { destruct (toolsUpdateCallback s) as [q|] eqn:Hq; [|done].
    repeat split.
    - rewrite settled_resolve; [done|]. by intros ->.
    - by rewrite toolsUpdateCallback_resolve, Hq.
    - intros k. rewrite messageHandlers_resolve. apply Hh. }
  destruct (equals (mtype message) "tool_response").
  { destruct (m_requestId message) as [k|]; simpl; [|done].
    destruct (messageHandlers s !! k) as [q|] eqn:Hq; [|done].
    repeat split; simpl.
    - rewrite settled_resolve; [done|]. intros ->. by apply (Hh k).
    - by rewrite toolsUpdateCallback_resolve.
    - intros k'. rewrite messageHandlers_resolve.
      destruct (decide (k = k')) as [<-|Hne].
      + by rewrite lookup_delete_eq.
      + rewrite lookup_delete_ne by done. apply Hh. }
  by destruct (equals (mtype message) "error").
Qed.

Lemma receive_unused messages :
  ∀ s p, Unused p s → Unused p (receive s messages).
Proof.
  unfold receive. induction messages as [|m messages IH]; intros s p H; simpl.
  - done.
  - apply IH. by apply onmessage_unused.
Qed.

(** A message that is not a catalog leaves the catalog promise waiting. *)
Lemma onmessage_awaited message s p :
  mtype message ≠ Some "tools_list" →
  Awaited p s → Awaited p (onmessage message s).
Proof.
  intros Hty Haw. pose proof Haw as (Hcb & Hs & Hh). unfold onmessage.
  rewrite (ServerFacts.equals_false _ "tools_list") by done.
  destruct (equals (mtype message) "tool_response").
  { destruct (m_requestId message) as [k|]; simpl; [|done].
    destruct (messageHandlers s !! k) as [q|] eqn:Hq; [|done].
    repeat split; simpl.
    - by rewrite toolsUpdateCallback_resolve.
    - rewrite settled_resolve; [done|]. intros ->. by apply (Hh k).
    - intros k'. rewrite messageHandlers_resolve.
      destruct (decide (k = k')) as [<-|Hne].
      + by rewrite lookup_delete_eq.
      + rewrite lookup_delete_ne by done. apply Hh. }
  by destruct (equals (mtype message) "error").
Qed.

Lemma receive_awaited messages :
  Forall (fun m => mtype m ≠ Some "tools_list") messages →
  ∀ s p, Awaited p s → Awaited p (receive s messages).
Proof.
  unfold receive. induction 1 as [|m messages Hm _ IH]; intros s p Hs; simpl.
  - done.
  - apply IH. by apply onmessage_awaited.
Qed.

Lemma sendOrQueue_all_disconnected messages :
  ∀ s, connected s = false →
       foldl (fun st m => sendOrQueue m st) s messages
       = set_queues (messageQueue s ++ messages) (sent s) s.
Proof.
  induction messages as [|m messages IH]; intros s Hc; simpl.
  - rewrite app_nil_r. by destruct s.
  - rewrite IH.
    + unfold sendOrQueue. rewrite Hc. simpl. by rewrite <- app_assoc.
    + unfold sendOrQueue. by rewrite Hc.
Qed.

Lemma callTool_fields k server tool args s :
  (callTool k server tool args s).1 = nextPromise s
  ∧ messageHandlers (callTool k server tool args s).2
    = <[k := nextPromise s]> (messageHandlers s)
  ∧ settled (callTool k server tool args s).2 = settled s
  ∧ toolsUpdateCallback (callTool k server tool args s).2 = toolsUpdateCallback s
  ∧ nextPromise (callTool k server tool args s).2 = S (nextPromise s).
Proof.
  unfold callTool. simpl.
  by destruct (sendOrQueue_tables (CallTool k server tool args)
                 (set_messageHandlers (insert k (nextPromise s))
                    (set_nextPromise (S (nextPromise s)) s)))
    as (-> & -> & -> & ->).
Qed.

Lemma createMCPClient_fields s :
  (createMCPClient s).1 = nextPromise s
  ∧ messageHandlers (createMCPClient s).2 = messageHandlers s
  ∧ settled (createMCPClient s).2 = settled s
  ∧ toolsUpdateCallback (createMCPClient s).2 = Some (nextPromise s)
  ∧ nextPromise (createMCPClient s).2 = S (nextPromise s).
Proof.
  unfold createMCPClient, onToolsUpdate. simpl.
  by destruct (sendOrQueue_tables ListTools
                 (set_toolsUpdateCallback (Some (nextPromise s))
                    (set_nextPromise (S (nextPromise s)) s)))
    as (-> & -> & -> & ->).
Qed.

Lemma createMCPClient_awaited s :
  WellFormed s → Awaited (createMCPClient s).1 (createMCPClient s).2.
Proof.
  intros Hwf. destruct (Hwf (nextPromise s)) as (Hs & _ & Hh); [done|].
  destruct (createMCPClient_fields s) as (Hp & Hh1 & Hs1 & Hc & _).
  unfold Awaited. by rewrite Hp, Hh1, Hs1, Hc.
Qed.

End ClientMoreFacts.

Module ClientProperties.

Import Server Client ClientFacts ClientMoreFacts.

Local Open Scope list_scope.

(** X8: while the socket is not open nothing is sent; everything given to
    [sendOrQueue] is kept, and [onopen] sends the whole queue in the order it
    was filled and empties it.  From then on a message is sent at once. *)
Theorem queued_messages_are_sent_on_open (s : State) (messages : list Outgoing)
    (next : Outgoing) :
  connected s = false →
  sent (foldl (fun st m => sendOrQueue m st) s messages) = sent s
  ∧ sent (onopen (foldl (fun st m => sendOrQueue m st) s messages))
    = sent s ++ messageQueue s ++ messages
  ∧ messageQueue (onopen (foldl (fun st m => sendOrQueue m st) s messages)) = []
  ∧ sent (sendOrQueue next (onopen (foldl (fun st m => sendOrQueue m st) s messages)))
    = sent s ++ messageQueue s ++ messages ++ [next].
Proof.
  intros Hc. rewrite sendOrQueue_all_disconnected by done.
  unfold onopen, sendOrQueue. simpl. repeat split; try done.
  by rewrite <- !app_assoc.
Qed.

Lemma queued_messages_are_sent_on_open_witness :
  sent (foldl (fun st m => sendOrQueue m st) new
          [ListTools; CallTool "k3x9" "a" "read_file" JNull]) = sent new
  ∧ sent (onopen (foldl (fun st m => sendOrQueue m st) new
                    [ListTools; CallTool "k3x9" "a" "read_file" JNull]))
    = sent new ++ messageQueue new
      ++ [ListTools; CallTool "k3x9" "a" "read_file" JNull]
  ∧ messageQueue (onopen (foldl (fun st m => sendOrQueue m st) new
                            [ListTools; CallTool "k3x9" "a" "read_file" JNull])) = []
  ∧ sent (sendOrQueue ListTools
            (onopen (foldl (fun st m => sendOrQueue m st) new
                       [ListTools; CallTool "k3x9" "a" "read_file" JNull])))
    = sent new ++ messageQueue new
      ++ [ListTools; CallTool "k3x9" "a" "read_file" JNull] ++ [ListTools].
Proof.
  apply (queued_messages_are_sent_on_open new
           [ListTools; CallTool "k3x9" "a" "read_file" JNull] ListTools).
  reflexivity.
Defined.

(** X9: the promise [callTool] returns is resolved with [message.response]
    by the first [tool_response] frame that carries the call's id, whatever
    else arrives before it, and the call's entry is then removed from the
    table. *)
Theorem response_settles_the_call (s : State) (k server tool : string)
    (args : json) (between : list ServerMessage) (response : ServerMessage) :
  WellFormed s →
  Forall (fun m => respondsTo k m = false) between →
  mtype response = Some "tool_response" →
  m_requestId response = Some k →
  settled (onmessage response (receive (callTool k server tool args s).2 between))
    !! (callTool k server tool args s).1
  = Some (Response (m_response response))
  ∧ messageHandlers
      (onmessage response (receive (callTool k server tool args s).2 between)) !! k
    = None.
Proof.
  intros Hwf Hbetween Hty Hid.
  pose proof (callTool_pending k server tool args s Hwf) as Hpend.
  destruct (receive_pending k _ between Hbetween _ Hpend) as (Hk & Hp & _).
  rewrite (onmessage_response _ _ k _ Hty Hid Hk). simpl. split.
  - by apply settled_resolve_eq.
  - apply lookup_delete_eq.
Qed.

Lemma response_settles_the_call_witness :
  settled (onmessage Demo.otherResponse
             (receive (callTool "p0q1" "a" "read_file" JNull new).2
                      [Demo.toolFailed; Demo.catalogPush]))
    !! (callTool "p0q1" "a" "read_file" JNull new).1
  = Some (Response (m_response Demo.otherResponse))
  ∧ messageHandlers
      (onmessage Demo.otherResponse
         (receive (callTool "p0q1" "a" "read_file" JNull new).2
                  [Demo.toolFailed; Demo.catalogPush])) !! "p0q1"
    = None.
Proof.
  apply (response_settles_the_call new "p0q1" "a" "read_file" JNull
           [Demo.toolFailed; Demo.catalogPush] Demo.otherResponse).
  - exact new_wellFormed.
  - repeat constructor.
  - reflexivity.
  - reflexivity.
Defined.

(** X10: a [tool_response] frame is acted on at most once.  Handling it
    removes the entry it was looked up under, so when the same frame arrives
    a second time nothing is found and the client is left exactly as it
    was. *)
Theorem repeated_response_is_ignored (s : State) (response : ServerMessage) :
  mtype response = Some "tool_response" →
  onmessage response (onmessage response s) = onmessage response s.
Proof.
  intros Hty.
  assert (Hmiss : ∀ st, m_requestId response ≫= (fun k => messageHandlers st !! k)
                        = None → onmessage response st = st).
  { intros st Hnone. unfold onmessage.
    rewrite (ServerFacts.equals_false _ "tools_list") by (rewrite Hty; done).
    rewrite (ServerFacts.equals_true _ "tool_response") by done.
    by rewrite Hnone. }
  destruct (m_requestId response) as [k|] eqn:Hid;
    [|by rewrite !(Hmiss s) by done].
  destruct (messageHandlers s !! k) as [p|] eqn:Hk.
  - rewrite (onmessage_response response s k p Hty Hid Hk).
    apply Hmiss. simpl. rewrite messageHandlers_resolve. apply lookup_delete_eq.
  - by rewrite !(Hmiss s) by done.
Qed.

Lemma repeated_response_is_ignored_witness :
  onmessage Demo.otherResponse
    (onmessage Demo.otherResponse (callTool "p0q1" "a" "read_file" JNull new).2)
  = onmessage Demo.otherResponse (callTool "p0q1" "a" "read_file" JNull new).2.
Proof.
  apply (repeated_response_is_ignored
           (callTool "p0q1" "a" "read_file" JNull new).2 Demo.otherResponse).
  reflexivity.
Defined.

(** X11: when [callTool] is given an id that an earlier call still waits
    under, the later call takes over the table entry: the two calls have
    different promises, and the earlier one can no longer be settled by any
    message. *)
Theorem reused_requestId_orphans_first_call (s : State) (k : string)
    (server tool server' tool' : string) (args args' : json)
    (messages : list ServerMessage) :
  WellFormed s →
  (callTool k server tool args s).1
    ≠ (callTool k server' tool' args' (callTool k server tool args s).2).1
  ∧ messageHandlers (callTool k server' tool' args' (callTool k server tool args s).2).2
      !! k
    = Some (callTool k server' tool' args' (callTool k server tool args s).2).1
  ∧ settled
      (receive (callTool k server' tool' args' (callTool k server tool args s).2).2
               messages)
      !! (callTool k server tool args s).1
    = None.
Proof.
  intros Hwf.
  destruct (Hwf (nextPromise s)) as (Hs & Hcb & Hh); [done|].
  destruct (callTool_fields k server tool args s) as (Hp1 & Hh1 & Hs1 & Hc1 & Hn1).
  destruct (callTool_fields k server' tool' args' (callTool k server tool args s).2)
    as (Hp2 & Hh2 & Hs2 & Hc2 & Hn2).
  rewrite Hp1, Hp2, Hn1, Hh2, Hn1.
  split; [lia|]. split; [apply lookup_insert_eq|].
  apply (receive_unused messages). repeat split.
  - by rewrite Hs2, Hs1.
  - by rewrite Hc2, Hc1.
  - intros k'. rewrite Hh2, Hn1, Hh1. destruct (decide (k = k')) as [<-|Hk'].
    + rewrite lookup_insert_eq. intros [= Heq]. lia.
    + rewrite !lookup_insert_ne by done. apply Hh.
Qed.

Lemma reused_requestId_orphans_first_call_witness :
  (callTool "k3x9" "a" "read_file" JNull new).1
    ≠ (callTool "k3x9" "c" "write_file" JNull
         (callTool "k3x9" "a" "read_file" JNull new).2).1
  ∧ messageHandlers (callTool "k3x9" "c" "write_file" JNull
                       (callTool "k3x9" "a" "read_file" JNull new).2).2 !! "k3x9"
    = Some (callTool "k3x9" "c" "write_file" JNull
              (callTool "k3x9" "a" "read_file" JNull new).2).1
  ∧ settled
      (receive (callTool "k3x9" "c" "write_file" JNull
                  (callTool "k3x9" "a" "read_file" JNull new).2).2
               [Demo.toolFailed; Demo.catalogPush])
      !! (callTool "k3x9" "a" "read_file" JNull new).1
    = None.
Proof.
  apply (reused_requestId_orphans_first_call new "k3x9" "a" "read_file"
           "c" "write_file" JNull JNull [Demo.toolFailed; Demo.catalogPush]).
  exact new_wellFormed.
Defined.

(** X12: the promise [createMCPClient] returns stays pending while frames
    of other kinds arrive, is resolved with the tools of the first
    [tools_list] frame that arrives, whatever arrived before it, and keeps
    them whatever arrives later. *)
Theorem createMCPClient_resolves_with_first_catalog (s : State)
    (before : list ServerMessage) (catalog : ServerMessage)
    (later : list ServerMessage) :
  WellFormed s →
  Forall (fun m => mtype m ≠ Some "tools_list") before →
  mtype catalog = Some "tools_list" →
  settled (receive (createMCPClient s).2 before) !! (createMCPClient s).1 = None
  ∧ settled (receive (createMCPClient s).2 (before ++ catalog :: later))
      !! (createMCPClient s).1
    = Some (ClientInfo (m_tools catalog)).
Proof.
  intros Hwf Hbefore Hty.
  destruct (receive_awaited before Hbefore _ _ (createMCPClient_awaited s Hwf))
    as (Hcb & Hs & _).
  split; [done|].
  unfold receive in *. rewrite foldl_app. cbn [foldl].
  apply receive_settled_keeps.
  rewrite onmessage_tools_list by done. rewrite Hcb.
  by apply settled_resolve_eq.
Qed.

Lemma createMCPClient_resolves_with_first_catalog_witness :
  settled (receive (createMCPClient new).2 [Demo.toolFailed; Demo.otherResponse])
    !! (createMCPClient new).1 = None
  ∧ settled (receive (createMCPClient new).2
               ([Demo.toolFailed; Demo.otherResponse]
                ++ Scenario.fullCatalog :: [Demo.toolFailed; Demo.catalogPush]))
      !! (createMCPClient new).1
    = Some (ClientInfo (m_tools Scenario.fullCatalog)).
Proof.
  apply (createMCPClient_resolves_with_first_catalog new
           [Demo.toolFailed; Demo.otherResponse] Scenario.fullCatalog
           [Demo.toolFailed; Demo.catalogPush]).
  - exact new_wellFormed.
  - repeat (constructor; [discriminate|]). constructor.
  - reflexivity.
Defined.

(** X13: the client keeps one catalog callback.  A second
    [createMCPClient] replaces the callback of the first, so if both are
    made before a catalog has arrived, the first promise is never resolved,
    whatever arrives. *)
Theorem second_createMCPClient_orphans_the_first (s : State)
    (messages : list ServerMessage) :
  WellFormed s →
  settled (receive (createMCPClient (createMCPClient s).2).2 messages)
    !! (createMCPClient s).1
  = None.
Proof.
  intros Hwf.
  destruct (Hwf (nextPromise s)) as (Hs & Hcb & Hh); [done|].
  destruct (createMCPClient_fields s) as (Hp1 & Hh1 & Hs1 & Hc1 & Hn1).
  destruct (createMCPClient_fields (createMCPClient s).2)
    as (Hp2 & Hh2 & Hs2 & Hc2 & Hn2).
  rewrite Hp1. apply (receive_unused messages). repeat split.
  - by rewrite Hs2, Hs1.
  - rewrite Hc2, Hn1. intros [= Heq]. lia.
  - intros k. rewrite Hh2, Hh1. apply Hh.
Qed.

Lemma second_createMCPClient_orphans_the_first_witness :
  settled (receive (createMCPClient (createMCPClient new).2).2
                   [Demo.catalogPush; Demo.catalogPush])
    !! (createMCPClient new).1
  = None.
Proof.
  apply (second_createMCPClient_orphans_the_first new
           [Demo.catalogPush; Demo.catalogPush]).
  exact new_wellFormed.
Defined.

End ClientProperties.

(** * The client and the proxy together *)

Module WireProperties.

Import Server ServerFacts Client ClientFacts ClientMoreFacts Wire.

Local Open Scope list_scope.

Lemma callTool_delivered k server tool args c :
  connected c = true →
  drop (length (sent c)) (sent (callTool k server tool args c).2)
  = [CallTool k server tool args].
Proof.
  intros Hc. unfold callTool, sendOrQueue. simpl. rewrite Hc. simpl.
  apply drop_app_length.
Qed.

Example exchange_with_demo :
  settled (exchange Demo.world 1 Demo.started (onopen new) "k3x9" "a" "read_file"
             (JObject [])).2 !! 0
  = Some (Response (Some (JObject [("output", JObject [("success", JBool true);
                                                       ("result", JString "contents")])]))).
Proof. by vm_compute. Qed.

(** X14: a call made on an open socket to a registered server whose
    backend resolves: the proxy's one frame comes back under the call's id,
    and the promise [callTool] returned is resolved with
    [{output: {success: true, result}}], [result] being the backend's value
    (itself if a string, serialized otherwise); the call's entry is gone. *)
Theorem call_round_trip_resolves (W : World) (ws : nat)
    (proxy : Server.State) (c : Client.State) (k server tool : string)
    (args : json) (info : Server.ClientInfo) (value : json) :
  WellFormed c →
  connected c = true →
  map_get server (mcpClients proxy) = Some info →
  Server.callTool W (client info) (Some tool) (Some args) = inr value →
  settled (exchange W ws proxy c k server tool args).2
    !! (exchange W ws proxy c k server tool args).1
  = Some (Response
            (Some (JObject
                     [("output",
                       JObject [("success", JBool true);
                                ("result",
                                 JString match value with
                                         | JString text => text
                                         | _ => JSON_stringify W value
                                         end)])])))
  ∧ messageHandlers (exchange W ws proxy c k server tool args).2 !! k = None.
Proof.
  intros Hwf Hc Hget Hcall. unfold exchange. cbn [fst snd].
  rewrite callTool_delivered by done. cbn [serve].
  destruct (incoming_known_server W ws (asRequest (CallTool k server tool args))
              proxy info eq_refl Hget) as (before & after & frame & Hrun & Hframe).
  erewrite effectsOf_app by exact Hrun.
  simpl in Hframe. rewrite Hcall in Hframe. subst frame.
  unfold framesFor. simpl. rewrite decide_True by done. simpl.
  unfold receive. cbn [foldl].
  pose proof (callTool_pending k server tool args c Hwf) as (Hk & Hp & _).
  erewrite onmessage_response; [|reflexivity|reflexivity|exact Hk].
  simpl. split.
  - by apply settled_resolve_eq.
  - apply lookup_delete_eq.
Qed.

Lemma call_round_trip_resolves_witness :
  settled (exchange Scenario.twins 2 Scenario.twinsStarted (onopen new)
             "k3x9" "c" "read_file" JNull).2
    !! (exchange Scenario.twins 2 Scenario.twinsStarted (onopen new)
          "k3x9" "c" "read_file" JNull).1
  = Some (Response
            (Some (JObject
                     [("output",
                       JObject [("success", JBool true);
                                ("result",
                                 JString match JString "proxy-c-client" with
                                         | JString text => text
                                         | _ => JSON_stringify Scenario.twins
                                                  (JString "proxy-c-client")
                                         end)])])))
  ∧ messageHandlers (exchange Scenario.twins 2 Scenario.twinsStarted (onopen new)
                       "k3x9" "c" "read_file" JNull).2 !! "k3x9" = None.
Proof.
  apply (call_round_trip_resolves Scenario.twins 2 Scenario.twinsStarted
           (onopen new) "k3x9" "c" "read_file" JNull
           {| client := newClient "c" Scenario.serverC;
              tools := [Demo.read_file; Scenario.write_file] |}
           (JString "proxy-c-client")).
  - intros p _. by repeat split.
  - reflexivity.
  - reflexivity.
  - reflexivity.
Defined.

(** X15: a call made on an open socket that the proxy cannot serve --
    the server is not registered, or its backend rejects the call -- is
    answered with an [error] frame, which the client only prints: after the
    exchange the call is still in the table and its promise is not settled,
    so the caller of [callTool] is never told of the failure. *)
Theorem failed_call_leaves_promise_pending (W : World) (ws : nat)
    (proxy : Server.State) (c : Client.State) (k server tool : string)
    (args : json) :
  WellFormed c →
  connected c = true →
  map_get server (mcpClients proxy) = None
  ∨ (∃ info e, map_get server (mcpClients proxy) = Some info
               ∧ Server.callTool W (client info) (Some tool) (Some args) = inl e) →
  messageHandlers (exchange W ws proxy c k server tool args).2 !! k
  = Some (exchange W ws proxy c k server tool args).1
  ∧ settled (exchange W ws proxy c k server tool args).2
      !! (exchange W ws proxy c k server tool args).1
    = None
  ∧ ∃ line, console (exchange W ws proxy c k server tool args).2
            = console c ++ [line].
Proof.
  intros Hwf Hc Hfail. unfold exchange. cbn [fst snd].
  rewrite callTool_delivered by done. cbn [serve].
  pose proof (callTool_pending k server tool args c Hwf) as (Hk & Hp & _).
  assert (∃ id e,
            framesFor ws
              (effectsOf (incoming W ws (inr (asRequest (CallTool k server tool args))))
                         proxy)
            = [ErrorFrame id e]) as (id & e & ->).
  { destruct Hfail as [Hnone | (info & e & Hget & Hcall)].
    - erewrite effectsOf_app
        by (by apply incoming_unknown_server; [|simpl; rewrite Hnone]).
      unfold framesFor. simpl. rewrite decide_True by done. by do 2 eexists.
    - destruct (incoming_known_server W ws
                  (asRequest (CallTool k server tool args)) proxy info eq_refl Hget)
        as (before & after & frame & Hrun & Hframe).
      erewrite effectsOf_app by exact Hrun.
      simpl in Hframe. rewrite Hcall in Hframe. subst frame.
      unfold framesFor. simpl. rewrite decide_True by done. by do 2 eexists. }
  cbn [map app]. unfold receive. cbn [foldl].
  rewrite onmessage_error by done.
  repeat split; try done.
  eexists. simpl. f_equal.
  unfold sendOrQueue. simpl. by rewrite Hc.
Qed.

Lemma failed_call_leaves_promise_pending_witness :
  messageHandlers (exchange Demo.world 1 Demo.started (onopen new)
                     "k3x9" "nope" "read_file" JNull).2 !! "k3x9"
  = Some (exchange Demo.world 1 Demo.started (onopen new)
            "k3x9" "nope" "read_file" JNull).1
  ∧ settled (exchange Demo.world 1 Demo.started (onopen new)
               "k3x9" "nope" "read_file" JNull).2
      !! (exchange Demo.world 1 Demo.started (onopen new)
            "k3x9" "nope" "read_file" JNull).1
    = None
  ∧ ∃ line, console (exchange Demo.world 1 Demo.started (onopen new)
                       "k3x9" "nope" "read_file" JNull).2
            = console (onopen new) ++ [line].
Proof.
  apply (failed_call_leaves_promise_pending Demo.world 1 Demo.started
           (onopen new) "k3x9" "nope" "read_file" JNull).
  - intros p _. by repeat split.
  - reflexivity.
  - left. reflexivity.
Defined.

(** X25: on an open socket, the promise [createMCPClient] returns is
    resolved with the proxy's catalog: the tools of every registered
    backend, each with its [serverName], in registry order. *)
Theorem discovery_round_trip (W : World) (ws : nat) (proxy : Server.State)
    (c : Client.State) :
  WellFormed c →
  connected c = true →
  settled (discover W ws proxy c).2 !! (discover W ws proxy c).1
  = Some (ClientInfo (allTools (mcpClients proxy))).
Proof.
  intros Hwf Hc. unfold discover. cbn [fst snd].
  assert (drop (length (sent c)) (sent (createMCPClient c).2) = [ListTools]) as ->.
  { unfold createMCPClient, onToolsUpdate, sendOrQueue. simpl. rewrite Hc. simpl.
    apply drop_app_length. }
  cbn [serve].
  erewrite effectsOf_app by (by apply incoming_list_tools).
  unfold framesFor. simpl. rewrite decide_True by done. simpl.
  unfold receive. cbn [foldl].
  rewrite onmessage_tools_list by done.
  destruct (createMCPClient_fields c) as (Hp & _ & Hs & Hcb & _).
  destruct (Hwf (nextPromise c)) as (Hfresh & _); [done|].
  unfold createMCPClient in *. simpl in *. rewrite Hcb.
  apply settled_resolve_eq. by rewrite Hs.
Qed.

Lemma discovery_round_trip_witness :
  settled (discover Scenario.twins 2 Scenario.twinsStarted (onopen new)).2
    !! (discover Scenario.twins 2 Scenario.twinsStarted (onopen new)).1
  = Some (ClientInfo (allTools (mcpClients Scenario.twinsStarted))).
Proof.
  apply (discovery_round_trip Scenario.twins 2 Scenario.twinsStarted (onopen new)).
  - intros p _. by repeat split.
  - reflexivity.
Defined.

End WireProperties.

(** * Further properties of the schema converters *)

Module SchemaFacts.

Import SchemaShape.

Lemma scalarType_scalar ty : scalar (scalarType ty).
Proof.
  unfold scalar, scalarType. repeat case_match; auto.
Qed.

Lemma itemType_scalar items : scalar (itemType items).
Proof.
  unfold scalar, itemType. repeat case_match; auto.
Qed.

Lemma stripQuotes_quoteFree s : quoteFree (ToolConversion.stripQuotes s) = true.
Proof.
  induction s as [|a s IH]; simpl; [done|].
  destruct (ToolConversion.isQuote a) eqn:Ha; simpl; [done|].
  by rewrite Ha.
Qed.

Lemma stripQuotes_clean s : quoteFree s = true → ToolConversion.stripQuotes s = s.
Proof.
  induction s as [|a s IH]; simpl; [done|].
  destruct (ToolConversion.isQuote a); simpl; [done|].
  intros H. by rewrite IH.
Qed.

Lemma isQuote_spec a :
  ToolConversion.isQuote a = true
  ↔ a = ascii_of_nat 39 ∨ a = ascii_of_nat 34 ∨ a = ascii_of_nat 96.
Proof.
  unfold ToolConversion.isQuote.
  rewrite !orb_true_iff, !bool_decide_eq_true. tauto.
Qed.

Lemma stripQuotes_filter s :
  list_ascii_of_string (ToolConversion.stripQuotes s)
  = filter (fun a => a ≠ ascii_of_nat 39 ∧ a ≠ ascii_of_nat 34 ∧ a ≠ ascii_of_nat 96)
           (list_ascii_of_string s).
Proof.
  induction s as [|a s IH]; [done|]. cbn [ToolConversion.stripQuotes list_ascii_of_string].
  rewrite filter_cons.
  destruct (ToolConversion.isQuote a) eqn:Ha.
  - apply isQuote_spec in Ha. rewrite decide_False by tauto. exact IH.
  - rewrite decide_True.
    + cbn [list_ascii_of_string]. by rewrite IH.
    + repeat split; intros ->; by rewrite (proj2 (isQuote_spec _)) in Ha by tauto.
Qed.

Lemma stripQuotes_length s :
  (String.length (ToolConversion.stripQuotes s) ≤ String.length s)%nat.
Proof.
  induction s as [|a s IH]; simpl; [done|].
  destruct (ToolConversion.isQuote a); simpl; lia.
Qed.

Section AnyCleaner.

Variable clean : option string -> string.

Lemma convertProperty_wellShaped (prop : Property) :
  wellShaped (convertProperty clean prop).
Proof.
  unfold wellShaped, convertProperty.
  destruct (decide (prop_type prop = Some "array")); simpl;
    [|apply scalarType_scalar].
  destruct (prop_items prop ≫= items_properties) as [sub|]; simpl.
  - repeat split; try done; try apply itemType_scalar; try by eexists.
    intros nested key cs [= <-]. rewrite reduceEntries_fmap, lookup_fmap.
    destruct (delete "__proto__" sub !! key); [|done].
    intros [= <-]. apply scalarType_scalar.
  - repeat split; try done; try apply itemType_scalar; by intros [? ?].
Qed.

End AnyCleaner.

Lemma altair_convert_fst (tool : Tool) c :
  (Altair.convertToolToFunctionDeclaration tool c).1 = Altair.normalized tool.
Proof. destruct (AltairFacts.altair_convert_writes tool) as [o Ho]. by rewrite Ho. Qed.

End SchemaFacts.

Module SchemaProperties.

Import SchemaShape SchemaFacts.

Example editFiles_converted :
  (ToolConversion.convertToolToFunctionDeclaration Scenario.editFiles []).1
  = {| fd_name := "edit_files";
       fd_description := Some "Edit several files";
       fd_parameters :=
         Some {| par_type := OBJECT;
                 par_properties :=
                   {[ "edits" :=
                        {| cp_type := ARRAY;
                           cp_items :=
                             Some {| ci_type := OBJECT;
                                     ci_properties :=
                                       Some {[ "path" := {| cs_type := STRING;
                                                            cs_description := "the path" |} ]};
                                     ci_required := Some [] |};
                           cp_description := "" |};
                      "count" := {| cp_type := OBJECT; cp_items := None;
                                    cp_description := "" |} ]};
                 par_required := ["edits"] |} |}.
Proof. by vm_compute. Qed.

(** X16: [cleanDescription] removes the three quote characters and nothing
    else: its result is the description with exactly the apostrophes, double
    quotes and backticks filtered out, every other character kept, in
    order.  So the result contains none of the three, is never longer than
    the description, and a description without them is returned unchanged;
    an absent description gives the empty string. *)
Theorem cleanDescription_removes_only_quotes (d : string) :
  list_ascii_of_string (ToolConversion.cleanDescription (Some d))
  = filter (fun a => a ≠ ascii_of_nat 39 ∧ a ≠ ascii_of_nat 34 ∧ a ≠ ascii_of_nat 96)
           (list_ascii_of_string d)
  ∧ quoteFree (ToolConversion.cleanDescription (Some d)) = true
  ∧ (String.length (ToolConversion.cleanDescription (Some d)) ≤ String.length d)%nat
  ∧ (quoteFree d = true → ToolConversion.cleanDescription (Some d) = d)
  ∧ ToolConversion.cleanDescription None = "".
Proof.
  simpl. split; [apply stripQuotes_filter|].
  split; [apply stripQuotes_quoteFree|].
  split; [apply stripQuotes_length|]. split; [apply stripQuotes_clean|done].
Qed.

Lemma cleanDescription_removes_only_quotes_witness :
  list_ascii_of_string (ToolConversion.cleanDescription (Some "Read the user's `file`"))
  = filter (fun a => a ≠ ascii_of_nat 39 ∧ a ≠ ascii_of_nat 34 ∧ a ≠ ascii_of_nat 96)
           (list_ascii_of_string "Read the user's `file`")
  ∧ quoteFree (ToolConversion.cleanDescription (Some "Read the user's `file`")) = true
  ∧ (String.length (ToolConversion.cleanDescription (Some "Read the user's `file`"))
     ≤ String.length "Read the user's `file`")%nat
  ∧ (quoteFree "Read the user's `file`" = true →
     ToolConversion.cleanDescription (Some "Read the user's `file`")
     = "Read the user's `file`")
  ∧ ToolConversion.cleanDescription None = "".
Proof. apply (cleanDescription_removes_only_quotes "Read the user's `file`"). Defined.

Example cleanDescription_strips :
  ToolConversion.cleanDescription (Some "Read the user's `file`")
  = "Read the users file".
Proof. reflexivity. Qed.

(** X17: for a tool that has [inputSchema.properties], both copies of the
    converter keep the tool's name, give the parameters type OBJECT, convert
    every property under its own key, except one named [__proto__], which
    is dropped, and add none, and pass the schema's [required] list through
    ([[]] when there is none). *)
Theorem conversion_keeps_names_and_keys (tool : Tool) (schema : InputSchema)
    (props : gmap string Property) (c : Console.t dump) (d : FunctionDeclaration) :
  inputSchema tool = Some schema →
  properties schema = Some props →
  d = (ToolConversion.convertToolToFunctionDeclaration tool c).1
  ∨ d = (Altair.convertToolToFunctionDeclaration tool c).1 →
  fd_name d = name tool
  ∧ ∃ pars, fd_parameters d = Some pars
            ∧ par_type pars = OBJECT
            ∧ dom (par_properties pars) = dom props ∖ {[ "__proto__" ]}
            ∧ par_required pars = default [] (required schema).
Proof.
  intros Hs Hp Hd.
  assert (Hprops : inputSchema tool ≫= properties = Some props) by (by rewrite Hs).
  assert (Hreq : inputSchema tool ≫= required = required schema) by (by rewrite Hs).
  destruct Hd as [-> | ->].
  - rewrite ToolConversionFacts.convert_fst. unfold ToolConversion.normalized.
    rewrite Hprops, Hreq. simpl. split; [done|]. eexists. split; [done|]. simpl.
    by rewrite dom_fmap_L, dom_delete_L.
  - rewrite altair_convert_fst.
    unfold Altair.normalized. rewrite Hprops, Hreq. simpl.
    split; [done|]. eexists. split; [done|]. simpl.
    by rewrite dom_fmap_L, dom_delete_L.
Qed.

Lemma conversion_keeps_names_and_keys_witness :
  fd_name (Altair.convertToolToFunctionDeclaration Demo.readFiles []).1
  = name Demo.readFiles
  ∧ ∃ pars,
      fd_parameters (Altair.convertToolToFunctionDeclaration Demo.readFiles []).1
      = Some pars
      ∧ par_type pars = OBJECT
      ∧ dom (par_properties pars)
        = dom ({[ "paths" := Demo.pathsProperty ]} : gmap string Property)
            ∖ {[ "__proto__" ]}
      ∧ par_required pars = default [] (required Demo.pathsSchema).
Proof.
  apply (conversion_keeps_names_and_keys Demo.readFiles Demo.pathsSchema
           {[ "paths" := Demo.pathsProperty ]} []).
  - reflexivity.
  - reflexivity.
  - right. reflexivity.
Defined.

(** X18: every property in a declaration returned by either copy of the
    converter is well shaped: it has [items] exactly when its type is ARRAY;
    property, item and nested types are among STRING, NUMBER, BOOLEAN and
    OBJECT (never INTEGER, and never a nested ARRAY); and items carry a
    [required] list exactly when they carry nested properties. *)
Theorem converted_properties_are_well_shaped (tool : Tool) (c : Console.t dump)
    (d : FunctionDeclaration) (pars : Parameters) (key : string)
    (cp : ConvertedProp) :
  d = (ToolConversion.convertToolToFunctionDeclaration tool c).1
  ∨ d = (Altair.convertToolToFunctionDeclaration tool c).1 →
  fd_parameters d = Some pars →
  par_properties pars !! key = Some cp →
  wellShaped cp.
Proof.
  intros Hd Hpars Hcp.
  assert (∃ clean prop, cp = convertProperty clean prop) as (clean & prop & ->);
    [|apply convertProperty_wellShaped].
  destruct Hd as [-> | ->].
  - rewrite ToolConversionFacts.convert_fst in Hpars.
    unfold ToolConversion.normalized in Hpars. injection Hpars as <-.
    simpl in Hcp. destruct (inputSchema tool ≫= properties) as [props|].
    + rewrite lookup_fmap in Hcp.
      destruct (delete "__proto__" props !! key) as [prop|]; [|done].
      injection Hcp as <-. by do 2 eexists.
    + by rewrite lookup_empty in Hcp.
  - rewrite altair_convert_fst in Hpars. unfold Altair.normalized in Hpars.
    destruct (inputSchema tool ≫= properties) as [props|];
      injection Hpars as <-; simpl in Hcp.
    + rewrite lookup_fmap in Hcp.
      destruct (delete "__proto__" props !! key) as [prop|]; [|done].
      injection Hcp as <-. by do 2 eexists.
    + by rewrite lookup_empty in Hcp.
Qed.

Lemma converted_properties_are_well_shaped_witness :
  wellShaped
    {| cp_type := OBJECT; cp_items := None; cp_description := "" |}.
Proof.
  apply (converted_properties_are_well_shaped Scenario.editFiles []
           (ToolConversion.convertToolToFunctionDeclaration Scenario.editFiles []).1
           {| par_type := OBJECT;
              par_properties :=
                convertProperty ToolConversion.cleanDescription
                  <$> ({[ "edits" := Scenario.nestedProperty;
                          "count" := {| prop_type := Some "integer";
                                        prop_items := None;
                                        prop_description := None |} ]}
                       : gmap string Property);
              par_required := ["edits"] |}
           "count").
  - left. reflexivity.
  - by vm_compute.
  - by vm_compute.
Defined.

End SchemaProperties.

(** * Properties of the Altair component *)

Module ComponentFacts.

Import Server ConsoleFacts Component.

Local Open Scope list_scope.

Lemma writes_everyM {A} (p : A -> IO bool) (q : A -> bool) l :
  (∀ x, ∃ o, writes (p x) (q x) o) →
  ∃ o, writes (everyM p l) (forallb q l) o.
Proof.
  intros Hp. induction l as [|x l [o2 H2]]; simpl.
  - eexists. apply writes_ret.
  - destruct (Hp x) as [o1 H1]. destruct (q x) eqn:Hq.
    + eexists. eapply writes_bind; [exact H1|]. simpl. exact H2.
    + eexists. eapply writes_bind; [exact H1|]. simpl. apply writes_ret.
Qed.

Lemma validProperty_writes toolName kv :
  ∃ o, writes (validProperty toolName kv) (validPropertyResult kv.2) o.
Proof.
  unfold validProperty, validPropertyResult.
  destruct (falsy (prop_type kv.2)); simpl.
  { eexists. eapply writes_bind; [apply writes_log | apply writes_ret]. }
  destruct (if bool_decide (prop_type kv.2 = Some "array")
            then prop_items kv.2 else None) as [items|];
    [|eexists; apply writes_ret].
  destruct (falsy (items_type items)); simpl.
  { eexists. eapply writes_bind; [apply writes_log | apply writes_ret]. }
  destruct (bool_decide (items_type items = Some "object")
            && (bool_decide (items_properties items = None)
                || bool_decide (items_required items = None))); simpl.
  - eexists. eapply writes_bind; [apply writes_log | apply writes_ret].
  - eexists. apply writes_ret.
Qed.

Lemma validPropertyResult_spec prop :
  validPropertyResult prop = true ↔ ValidProperty prop.
Proof.
  unfold validPropertyResult, ValidProperty.
  destruct (falsy (prop_type prop)) eqn:Hty; simpl.
  { split; [intros [=] | intros [[=] _]]. }
  case_bool_decide as Harr.
  2: { split; [|done]. intros _. split; [done|]. by intros H. }
  destruct (prop_items prop) as [items|] eqn:Hitems.
  2: { split; [|done]. intros _. split; [done|]. by intros _ ? [=]. }
  destruct (falsy (items_type items)) eqn:Hity; simpl.
  { split; [intros [=]|]. intros [_ H].
    destruct (H Harr items eq_refl) as [H' _]. congruence. }
  case_bool_decide as Hobj; simpl.
  2: { split; [|done]. intros _. split; [done|].
       intros _ ? [= <-]. split; [done|]. by intros H. }
  destruct (items_properties items) as [nested|] eqn:Hn,
           (items_required items) as [req|] eqn:Hr; simpl.
  - split; [|done]. intros _. split; [done|].
    intros _ ? [= <-]. split; [done|]. intros _. rewrite Hn, Hr.
    split; by eexists.
  - split; [intros [=]|]. intros [_ H].
    destruct (H Harr items eq_refl) as [_ H'].
    destruct (H' Hobj) as [_ [? Hx]]. congruence.
  - split; [intros [=]|]. intros [_ H].
    destruct (H Harr items eq_refl) as [_ H'].
    destruct (H' Hobj) as [[? Hx] _]. congruence.
  - split; [intros [=]|]. intros [_ H].
    destruct (H Harr items eq_refl) as [_ H'].
    destruct (H' Hobj) as [[? Hx] _]. congruence.
Qed.

Lemma isValidToolSchema_writes tool :
  ∃ o, writes (isValidToolSchema tool)
              (match inputSchema tool ≫= properties, inputSchema tool ≫= required with
               | Some props, Some _ =>
                   forallb (fun kv => validPropertyResult kv.2) (map_to_list props)
               | _, _ => false
               end) o.
Proof.
  unfold isValidToolSchema.
  destruct (inputSchema tool ≫= properties) as [props|].
  - destruct (inputSchema tool ≫= required) as [req|].
    + destruct (writes_everyM (validProperty (name tool))
                  (fun kv => validPropertyResult kv.2) (map_to_list props)
                  (validProperty_writes (name tool))) as [o Ho].
      eexists. eapply writes_bind; [exact Ho|].
      destruct (forallb _ _); apply writes_ret.
    + eexists. eapply writes_bind; [apply writes_log | apply writes_ret].
  - eexists. eapply writes_bind; [apply writes_log | apply writes_ret].
Qed.

Lemma findIndex_none {A} (p : A -> bool) l :
  Forall (fun x => p x = false) l → findIndex p l = (-1)%Z.
Proof.
  induction 1 as [|x l Hx _ IH]; simpl; [done|].
  by rewrite Hx, IH.
Qed.

Lemma findIndex_first {A} (p : A -> bool) before t after :
  Forall (fun x => p x = false) before → p t = true →
  findIndex p (before ++ t :: after) = Z.of_nat (length before).
Proof.
  intros Hb Ht. induction Hb as [|x l Hx _ IH]; simpl.
  - by rewrite Ht.
  - rewrite Hx, IH.
    destruct (Z.of_nat (length l) <? 0)%Z eqn:Hlt; lia.
Qed.

Lemma removelast_take {A} (l : list A) :
  removelast l = take (length l - 1) l.
Proof.
  induction l as [|x [|y l] IH]; simpl; [done|done|].
  simpl in IH. rewrite IH. by rewrite Nat.sub_0_r.
Qed.

Lemma find_app_none {A} (p : A -> bool) l1 l2 :
  (∀ x, x ∈ l1 → p x = false) → find p (l1 ++ l2) = find p l2.
Proof.
  induction l1 as [|x l1 IH]; intros H; simpl; [done|].
  rewrite (H x) by left. apply IH. intros y Hy. apply H. by right.
Qed.

(** [slice] between two indices that are not negative. *)
Lemma slice_of_nat {A} (i j : nat) (l : list A) :
  slice (Z.of_nat i) (Z.of_nat j) l
  = take (min j (length l) - min i (length l)) (drop (min i (length l)) l).
Proof.
  unfold slice, relativeIndex.
  destruct (Z.ltb_spec (Z.of_nat i) 0); [lia|].
  destruct (Z.ltb_spec (Z.of_nat j) 0); [lia|].
  f_equal; [lia|]. f_equal. lia.
Qed.

(** [slice(i, -1)]: up to, and without, the last element. *)
Lemma slice_to_last {A} (i : nat) (l : list A) :
  slice (Z.of_nat i) (-1) l
  = take (length l - 1 - min i (length l)) (drop (min i (length l)) l).
Proof.
  unfold slice, relativeIndex.
  destruct (Z.ltb_spec (Z.of_nat i) 0); [lia|].
  destruct (Z.ltb_spec (-1) 0); [|lia].
  f_equal; [lia|]. f_equal. lia.
Qed.

Lemma find_app_first {A} (p : A -> bool) l1 l2 y :
  y ∈ l1 → p y = true →
  ∃ x, find p (l1 ++ l2) = Some x ∧ x ∈ l1 ∧ p x = true.
Proof.
  induction l1 as [|z l1 IH]; intros Hy Hp; [by apply elem_of_nil in Hy|].
  simpl. destruct (p z) eqn:Hz.
  - exists z. split; [done|]. split; [by left|done].
  - apply elem_of_cons in Hy as [->|Hy]; [congruence|].
    destruct (IH Hy Hp) as (x & Hf & Hx & Hpx).
    exists x. split; [done|]. split; [by right|done].
Qed.

End ComponentFacts.

Module ComponentProperties.

Import Server ServerFacts Protocol ProxyFacts ConsoleFacts Component ComponentFacts.

Local Open Scope list_scope.

Example selection_without_filesystem_tool :
  selectedTools [Scenario.githubTool "a"; Scenario.githubTool "b";
                 Scenario.githubTool "c"]
  = [Scenario.githubTool "a"; Scenario.githubTool "b";
     Scenario.githubTool "a"; Scenario.githubTool "b"].
Proof. reflexivity. Qed.

Example selection_with_filesystem_tool :
  selectedTools [Scenario.githubTool "a"; Scenario.filesystemTool "ls";
                 Scenario.githubTool "b"; Scenario.githubTool "c"]
  = [Scenario.githubTool "a"; Scenario.githubTool "b"].
Proof. reflexivity. Qed.

(** X19: [isValidToolSchema] accepts exactly the tools that have
    [inputSchema.properties] and a [required] array, and whose properties
    all have a non-empty type, with -- for an array property that declares
    items -- a non-empty item type and, for object items, both nested
    properties and a [required] array.  An array property without items is
    accepted. *)
Theorem isValidToolSchema_accepts_valid_tools (tool : Tool) (c : Console.t dump) :
  (isValidToolSchema tool c).1 = true ↔ Valid tool.
Proof.
  destruct (isValidToolSchema_writes tool) as [o Ho]. rewrite Ho. simpl.
  unfold Valid.
  destruct (inputSchema tool ≫= properties) as [props|];
    [|split; [done | by intros (? & [=] & _)]].
  destruct (inputSchema tool ≫= required) as [req|].
  - rewrite forallb_forall. split.
    + intros Hall. exists props. split; [done|]. split; [by eexists|].
      intros key prop Hk. apply validPropertyResult_spec.
      apply (Hall (key, prop)). apply list_elem_of_In.
      by apply elem_of_map_to_list.
    + intros (props' & [= <-] & _ & Hall) [key prop] Hin. simpl.
      apply validPropertyResult_spec, (Hall key).
      by apply elem_of_map_to_list, list_elem_of_In.
  - split; [done|]. by intros (? & _ & [? ?] & _).
Qed.

Lemma isValidToolSchema_accepts_valid_tools_witness :
  (isValidToolSchema Scenario.listFiles []).1 = true.
Proof.
  apply (isValidToolSchema_accepts_valid_tools Scenario.listFiles []).
  exists {[ "paths" := Demo.pathsProperty ]}. split; [reflexivity|].
  split; [by eexists|].
  intros key prop [_ <-]%lookup_singleton_Some. split; [reflexivity|].
  intros _ items [=].
Defined.

(** X20: when no tool is a filesystem tool without [$schema], the selection
    of the earlier revision holds every tool but the last twice, in order,
    and the last tool not at all. *)
Theorem selection_duplicates_without_match (init : list Tool) (t : Tool) :
  Forall (fun x => withoutSchema x = false) (init ++ [t]) →
  selectedTools (init ++ [t]) = init ++ init.
Proof.
  intros Hnone. unfold selectedTools. rewrite findIndex_none by done.
  change (-1 + 1)%Z with (Z.of_nat 0). change 0%Z with (Z.of_nat 0) at 1.
  replace (Z.of_nat (length (init ++ [t])) - 1)%Z with (Z.of_nat (length init))
    by (rewrite length_app; simpl; lia).
  rewrite slice_to_last, slice_of_nat. rewrite length_app. simpl.
  replace (length init + 1 - 1 - 0) with (length init) by lia.
  replace (min (length init) (length init + 1) - 0) with (length init) by lia.
  rewrite drop_0. by rewrite take_app_length.
Qed.

Lemma selection_duplicates_without_match_witness :
  selectedTools ([Scenario.githubTool "a"; Scenario.githubTool "b"]
                 ++ [Scenario.githubTool "c"])
  = [Scenario.githubTool "a"; Scenario.githubTool "b"]
    ++ [Scenario.githubTool "a"; Scenario.githubTool "b"].
Proof.
  apply (selection_duplicates_without_match
           [Scenario.githubTool "a"; Scenario.githubTool "b"]
           (Scenario.githubTool "c")).
  repeat constructor.
Defined.

(** X21: when some tool is a filesystem tool without [$schema], the
    selection of the earlier revision is the tools before the first such
    tool, followed by the tools after it except the last one: the first such
    tool and the last tool are left out, and later filesystem tools without
    [$schema] are kept. *)
Theorem selection_drops_first_match_and_last (before after : list Tool) (t : Tool) :
  Forall (fun x => withoutSchema x = false) before →
  withoutSchema t = true →
  selectedTools (before ++ t :: after) = before ++ removelast after.
Proof.
  intros Hb Ht. unfold selectedTools. rewrite findIndex_first by done.
  change 0%Z with (Z.of_nat 0) at 1.
  replace (Z.of_nat (length before) + 1)%Z with (Z.of_nat (S (length before)))
    by lia.
  replace (Z.of_nat (length (before ++ t :: after)) - 1)%Z
    with (Z.of_nat (length before + length after))
    by (rewrite length_app; simpl; lia).
  rewrite !slice_of_nat. rewrite length_app. cbn [length].
  replace (min 0 (length before + S (length after))) with 0 by lia.
  replace (min (length before) (length before + S (length after)) - 0)
    with (length before) by lia.
  replace (min (S (length before)) (length before + S (length after)))
    with (S (length before)) by lia.
  replace (min (length before + length after) (length before + S (length after))
           - S (length before))
    with (length after - 1) by lia.
  rewrite drop_0, take_app_length. f_equal.
  rewrite (cons_middle t before after), app_assoc.
  rewrite drop_app_length' by (rewrite length_app; simpl; lia).
  symmetry. apply removelast_take.
Qed.

Lemma selection_drops_first_match_and_last_witness :
  selectedTools ([Scenario.githubTool "a"] ++ Scenario.filesystemTool "ls"
                 :: [Scenario.filesystemTool "cat"; Scenario.githubTool "b"])
  = [Scenario.githubTool "a"]
    ++ removelast [Scenario.filesystemTool "cat"; Scenario.githubTool "b"].
Proof.
  apply (selection_drops_first_match_and_last [Scenario.githubTool "a"]
           [Scenario.filesystemTool "cat"; Scenario.githubTool "b"]
           (Scenario.filesystemTool "ls")).
  - repeat constructor.
  - reflexivity.
Defined.

(** X22: every schema issue that [logToolSchemaIssue] of the utility module
    puts on the socket is a request of type [tool_schema_issue], which the
    proxy does not know: it answers with an error frame.  The report of the
    earlier revision of the component is a [client_log] request, which the
    proxy prints and does not answer. *)
Theorem schema_issue_reports_at_the_proxy (W : World) (n : nat) (s : State)
    (ws : Socket) (tool : Tool) (issue : string) (m : Sent) :
  (m ∈ sends (logToolSchemaIssue ws tool issue) →
   frames (effectsOf (incoming W n (inr (asRequest m))) s)
   = [(n, ErrorFrame None "Unknown request type: tool_schema_issue")])
  ∧ (m ∈ sends (logToolSchemaIssueEarlier ws tool issue) →
     frames (effectsOf (incoming W n (inr (asRequest m))) s) = []
     ∧ last (effectsOf (incoming W n (inr (asRequest m))) s)
       = Some (Print ("[CLIENT] Tool Schema Issue: " +:+ name tool))).
Proof.
  split.
  - intros Hm.
    assert (m = SchemaIssue (name tool) (serverName tool) issue) as ->.
    { unfold logToolSchemaIssue in Hm. destruct ws; simpl in Hm.
      - by apply elem_of_nil in Hm.
      - by apply list_elem_of_singleton in Hm. }
    by erewrite effectsOf_app by (by apply incoming_unknown_type).
  - intros Hm.
    assert (m = ClientLog ("Tool Schema Issue: " +:+ name tool) (name tool)
                          (serverName tool) issue (inputSchema tool)) as ->.
    { unfold logToolSchemaIssueEarlier in Hm. destruct ws as [|[|]]; simpl in Hm.
      - by apply elem_of_nil in Hm.
      - by apply list_elem_of_singleton in Hm.
      - by apply elem_of_nil in Hm. }
    by erewrite effectsOf_app by (by apply incoming_client_log).
Qed.

Lemma schema_issue_reports_at_the_proxy_witness :
  frames (effectsOf
            (incoming Demo.world 3
               (inr (asRequest (SchemaIssue "read_files" "github" "Missing $schema"))))
            Demo.started)
  = [(3, ErrorFrame None "Unknown request type: tool_schema_issue")].
Proof.
  apply (schema_issue_reports_at_the_proxy Demo.world 3 Demo.started (Ws false)
           Demo.readFiles "Missing $schema"
           (SchemaIssue "read_files" "github" "Missing $schema")).
  apply list_elem_of_singleton. reflexivity.
Defined.

Lemma onFunctionCall_settles mcpTools ws fc :
  ∃ o, outcomes (onFunctionCall mcpTools ws fc) = [o] ∧ settles mcpTools ws fc o.
Proof.
  unfold onFunctionCall.
  destruct (find _ mcpTools) as [mcpTool|] eqn:Hfind.
  - apply find_some in Hfind as [Hin Hname].
    apply bool_decide_eq_true_1 in Hname. apply list_elem_of_In in Hin.
    destruct ws as [|[|]]; simpl.
    + eexists. split; [done|]. simpl. split; [done|]. by right.
    + eexists. split; [done|]. simpl. split; [done|].
      exists mcpTool. by rewrite Hname.
    + eexists. split; [done|]. simpl. split; [done|]. by right.
  - eexists. split; [done|]. simpl. split; [done|]. left. split; [|done].
    intros tool Hin%list_elem_of_In Hname.
    pose proof (find_none _ _ Hfind tool Hin) as Hno. simpl in Hno.
    by rewrite bool_decide_eq_true_2 in Hno.
Qed.

Lemma outcomes_app es1 es2 : outcomes (es1 ++ es2) = outcomes es1 ++ outcomes es2.
Proof. unfold outcomes. by rewrite flat_map_app. Qed.

Lemma sends_outcomes es :
  sends es = omap (fun o => match o with inl m => Some m | inr _ => None end)
                  (outcomes es).
Proof.
  induction es as [|[line|m|id error] es IH]; simpl; [done|done| |done].
  by rewrite IH.
Qed.

Lemma responses_outcomes es :
  responses es = omap (fun o => match o with inl _ => None | inr r => Some r end)
                      (outcomes es).
Proof.
  induction es as [|[line|m|id error] es IH]; simpl; [done|done|done|].
  by rewrite IH.
Qed.

(** X23: [onToolCall] settles every function call of a tool call exactly
    once, each in its turn: the objects put on the socket and the error
    responses given back to the model, taken in order, match the function
    calls one for one, and the outcome of a call is either a [call_tool]
    request with the call's name, arguments and id, addressed to the server
    of a tool of that name, on an open socket, or an error response carrying
    the call's id -- the latter when no tool has the call's name or the
    socket is not open.  Nothing else is sent or given back. *)
Theorem onToolCall_one_outcome_per_call (mcpTools : list Tool) (ws : Socket)
    (functionCalls : list FunctionCall) :
  Forall2 (settles mcpTools ws) functionCalls
          (outcomes (onToolCall mcpTools ws functionCalls))
  ∧ sends (onToolCall mcpTools ws functionCalls)
    = omap (fun o => match o with inl m => Some m | inr _ => None end)
           (outcomes (onToolCall mcpTools ws functionCalls))
  ∧ responses (onToolCall mcpTools ws functionCalls)
    = omap (fun o => match o with inl _ => None | inr r => Some r end)
           (outcomes (onToolCall mcpTools ws functionCalls)).
Proof.
  split; [|split; [apply sends_outcomes | apply responses_outcomes]].
  unfold onToolCall. cbn [outcomes flat_map app]. fold (outcomes).
  induction functionCalls as [|fc calls IH]; cbn [flat_map].
  { constructor. }
  change (flat_map _ (onFunctionCall mcpTools ws fc
                      ++ flat_map (onFunctionCall mcpTools ws) calls))
    with (outcomes (onFunctionCall mcpTools ws fc
                    ++ flat_map (onFunctionCall mcpTools ws) calls)).
  rewrite outcomes_app.
  destruct (onFunctionCall_settles mcpTools ws fc) as (o & -> & Ho).
  simpl. by constructor.
Qed.

Example onToolCall_outcomes :
  outcomes (onToolCall [Demo.readFiles] (Ws true)
              [ {| fc_name := "read_files"; fc_args := None;
                   fc_id := Some (JString "f1") |};
                 {| fc_name := "nope"; fc_args := None;
                    fc_id := Some (JString "f2") |} ])
  = [ inl (CallTool "read_files" "github" None (Some (JString "f1")));
      inr (Some (JString "f2"), "Tool nope not found") ].
Proof. reflexivity. Qed.

(** X24: the component routes a function call by the tool's bare name.
    When the catalog it holds is the proxy's, the request it sends names the
    first server, in registry order, that offers a tool of that name, and
    the proxy calls that server's backend: a tool of the same name on a later
    server cannot be reached through the component. *)
Theorem bare_name_reaches_first_server (W : World) (n : nat) (s : State)
    (before after : list (string * ClientInfo)) (k : string) (info : ClientInfo)
    (bt : BackendTool) (fc : FunctionCall) :
  mcpClients s = before ++ (k, info) :: after →
  NoDup (mcpClients s).*1 →
  bt ∈ tools info →
  bt_name bt = fc_name fc →
  (∀ entry, entry ∈ allTools before → name entry ≠ fc_name fc) →
  sends (onFunctionCall (allTools (mcpClients s)) (Ws true) fc)
  = [CallTool (fc_name fc) k (fc_args fc) (fc_id fc)]
  ∧ invocations
      (effectsOf
         (incoming W n
            (inr (asRequest (CallTool (fc_name fc) k (fc_args fc) (fc_id fc)))))
         s)
    = [(client info, Some (fc_name fc), fc_args fc)].
Proof.
  intros Hreg Hnd Hbt Hname Hbefore. split.
  - unfold onFunctionCall. rewrite Hreg. unfold allTools.
    rewrite flat_map_app. simpl.
    rewrite find_app_none.
    2: { intros x Hx. apply bool_decide_eq_false_2. by apply Hbefore. }
    destruct (find_app_first
                (fun tool => bool_decide (name tool = fc_name fc))
                (map (withServer k) (tools info))
                (flat_map (fun e : string * ClientInfo =>
                             map (withServer e.1) (tools e.2)) after)
                (withServer k bt)) as (x & -> & Hx & Hpx).
    { apply list_elem_of_In, in_map. by apply list_elem_of_In. }
    { by apply bool_decide_eq_true_2. }
    apply bool_decide_eq_true_1 in Hpx.
    apply list_elem_of_In, in_map_iff in Hx as (bt' & <- & _).
    simpl in *. by rewrite Hpx.
  - assert (Hget : map_get k (mcpClients s) = Some info).
    { apply map_get_elem; [done|]. rewrite Hreg.
      apply elem_of_app. right. by left. }
    destruct (incoming_known_server W n
                (asRequest (CallTool (fc_name fc) k (fc_args fc) (fc_id fc)))
                s info eq_refl Hget) as (b & a & frame & Hrun & _).
    by erewrite effectsOf_app by exact Hrun.
Qed.

Lemma bare_name_reaches_first_server_witness :
  sends (onFunctionCall (allTools (mcpClients Scenario.twinsStarted)) (Ws true)
           {| fc_name := "read_file"; fc_args := None;
              fc_id := Some (JString "f1") |})
  = [CallTool "read_file" "a" None (Some (JString "f1"))]
  ∧ invocations
      (effectsOf
         (incoming Scenario.twins 6
            (inr (asRequest (CallTool "read_file" "a" None (Some (JString "f1"))))))
         Scenario.twinsStarted)
    = [(client {| client := newClient "a" Demo.serverA; tools := [Demo.read_file] |},
        Some "read_file", None)].
Proof.
  apply (bare_name_reaches_first_server Scenario.twins 6 Scenario.twinsStarted
           []
           [("c", {| client := newClient "c" Scenario.serverC;
                     tools := [Demo.read_file; Scenario.write_file] |})]
           "a" {| client := newClient "a" Demo.serverA; tools := [Demo.read_file] |}
           Demo.read_file
           {| fc_name := "read_file"; fc_args := None;
              fc_id := Some (JString "f1") |}).
  - reflexivity.
  - apply (bool_decide_unpack _). by vm_compute.
  - apply list_elem_of_singleton. reflexivity.
  - reflexivity.
  - intros entry Hin. by apply elem_of_nil in Hin.
Defined.

End ComponentProperties.
